(** * tgops: plan-log summarizer, report command and stream relay

    A shallow embedding of [src/tgops.py] and the properties of its
    specification.

    Modelling conventions.
    - A Python [str] is a [string]; a character is a code point below 256
      (the Latin-1 range), so that [isspace] and [lower] are finite tables.
    - A Python [dict] is an association list in insertion order with unique
      keys ([items()] enumerates in insertion order).
    - The file system maps a path to the text of a regular file (after
      decoding and newline translation); directories and undecodable files
      are outside the model.
    - A child process is the list of lines it emits on each pipe and its
      return code; the two drain threads of [run_live] are interleaved at
      line granularity by an explicit schedule. *)

From Stdlib Require Import String Ascii List ZArith NArith Bool Lia.
From Stdlib Require Import DecimalString.
From stdpp Require Import base gmap strings list fin_maps.
Import ListNotations.

Local Open Scope list_scope.
Local Open Scope string_scope.

(** ** Characters *)

Module Char.

Definition LF : ascii := ascii_of_N 10.
Definition DQUOTE : ascii := ascii_of_N 34.

(** [str.isspace] on one character, and the class [\s] of [re] for [str]
    patterns: both are [Py_UNICODE_ISSPACE]; below 256 that is
    U+0009..U+000D, U+001C..U+0020, U+0085 and U+00A0. *)
Definition isspace (c : ascii) : bool :=
  let n := N_of_ascii c in
  ((9 <=? n) && (n <=? 13) || (28 <=? n) && (n <=? 32)
   || (n =? 133) || (n =? 160))%N.

(** [str.lower] on one character below 256: A..Z and U+00C0..U+00DE
    except the multiplication sign U+00D7 move up by 32. *)
Definition lower (c : ascii) : ascii :=
  let n := N_of_ascii c in
  if ((65 <=? n) && (n <=? 90)
      || (192 <=? n) && (n <=? 222) && negb (n =? 215))%N
  then ascii_of_N (n + 32) else c.

End Char.

(** ** Python string operations *)

Module Str.

Definition nl : string := String Char.LF "".
Definition dq : string := String Char.DQUOTE "".

(** [s.startswith(p)] *)
Fixpoint startswith (p s : string) : bool :=
  match p, s with
  | "", _ => true
  | String a p', String b s' => Ascii.eqb a b && startswith p' s'
  | String _ _, "" => false
  end.

(** [p in s] *)
Fixpoint contains (p s : string) : bool :=
  startswith p s ||
  match s with
  | "" => false
  | String _ s' => contains p s'
  end.

Fixpoint drop (n : nat) (s : string) : string :=
  match n, s with
  | O, _ => s
  | S n', String _ s' => drop n' s'
  | S _, "" => ""
  end.

Fixpoint take (n : nat) (s : string) : string :=
  match n, s with
  | S n', String c s' => String c (take n' s')
  | _, _ => ""
  end.

Fixpoint map (f : ascii -> ascii) (s : string) : string :=
  match s with
  | "" => ""
  | String c s' => String (f c) (map f s')
  end.

(** [s.lower()] *)
Definition lower (s : string) : string := map Char.lower s.

(** [s.lstrip()] *)
Fixpoint lstrip (s : string) : string :=
  match s with
  | String c s' => if Char.isspace c then lstrip s' else s
  | "" => ""
  end.

(** [s.rstrip()]: a character stays when something stays after it or when
    it is not white space. *)
Fixpoint rstrip (s : string) : string :=
  match s with
  | "" => ""
  | String c s' =>
      match rstrip s' with
      | "" => if Char.isspace c then "" else String c ""
      | r => String c r
      end
  end.

(** [s.strip()] *)
Definition strip (s : string) : string := rstrip (lstrip s).

(** [s[1:]] *)
Definition tail (s : string) : string := drop 1 s.

(** [s.replace(old, new, 1)]: the leftmost occurrence only. *)
Fixpoint replace_first (old new s : string) : string :=
  if startswith old s then new ++ drop (String.length old) s
  else match s with
       | "" => ""
       | String c s' => String c (replace_first old new s')
       end.

(** [s.replace(old, new)] for a non-empty [old]: all the occurrences, from
    the left and without overlap.  [skip] counts the characters of a
    matched occurrence that are still to be passed over. *)
Fixpoint replace_from (old new : string) (skip : nat) (s : string) : string :=
  match s with
  | "" => ""
  | String c s' =>
      match skip with
      | S k => replace_from old new k s'
      | O =>
          if startswith old s
          then new ++ replace_from old new (String.length old - 1) s'
          else String c (replace_from old new 0 s')
      end
  end.

(** With an empty [old], Python puts [new] before every character and at
    the end. *)
Fixpoint intersperse (new s : string) : string :=
  match s with
  | "" => new
  | String c s' => new ++ String c (intersperse new s')
  end.

Definition replace (old new s : string) : string :=
  match old with
  | "" => intersperse new s
  | _ => replace_from old new 0 s
  end.

(** The lines a text file yields when iterated: every line keeps its
    line feed, and a last line without one is yielded when not empty. *)
Fixpoint lines (s : string) : list string :=
  match s with
  | "" => []
  | String c s' =>
      if Ascii.eqb c Char.LF then String c "" :: lines s'
      else match lines s' with
           | [] => [String c ""]
           | ln :: rest => String c ln :: rest
           end
  end.

(** Every character of [s] satisfies [p]. *)
Fixpoint all (p : ascii -> bool) (s : string) : bool :=
  match s with
  | "" => true
  | String c s' => p c && all p s'
  end.

(** ["".join(l)] *)
Definition join (l : list string) : string := fold_right String.append "" l.

(** [f"{n}"] for an [int] *)
Definition of_int (n : Z) : string := NilZero.string_of_int (Z.to_int n).

End Str.

(** ** Ordered dictionaries *)

Module Dict.

Section Dict.
Context {V : Type}.

(** [d.get(k)] *)
Fixpoint get (k : string) (d : list (string * V)) : option V :=
  match d with
  | [] => None
  | (k', v) :: d' => if String.eqb k' k then Some v else get k d'
  end.

(** [d[k] = v]: an existing key keeps its place. *)
Fixpoint set (k : string) (v : V) (d : list (string * V)) : list (string * V) :=
  match d with
  | [] => [(k, v)]
  | (k', v') :: d' =>
      if String.eqb k' k then (k', v) :: d' else (k', v') :: set k v d'
  end.

(** [list(d.keys())] *)
Definition keys (d : list (string * V)) : list string := List.map fst d.

End Dict.

End Dict.

(** ** The regular expression [TOFU_RE] *)

Module Re.

(** The instructions the pattern compiles to. *)
Inductive op :=
| Literal (c : ascii)                         (* one given character *)
| In (p : ascii -> bool)                      (* one character of a class *)
| MaxRepeat (lo : nat) (p : ascii -> bool)    (* greedy p{lo,} *)
| Mark (n : nat).                             (* group boundary *)

Definition marks := list (nat * string).

(** Backtracking match of [ops] at the start of [s].  A mark records the
    text that remains at that point. *)
Fixpoint run (ops : list op) (s : string) (ms : marks) : option marks :=
  match ops with
  | [] => Some ms
  | Literal a :: k =>
      match s with
      | String c s' => if Ascii.eqb a c then run k s' ms else None
      | "" => None
      end
  | In p :: k =>
      match s with
      | String c s' => if p c then run k s' ms else None
      | "" => None
      end
  | Mark n :: k => run k s ((n, s) :: ms)
  | MaxRepeat lo p :: k =>
      (fix rep (n : nat) (s : string) {struct s} : option marks :=
         let stop := if (lo <=? n)%nat then run k s ms else None in
         match s with
         | String c s' =>
             if p c
             then match rep (S n) s' with
                  | Some r => Some r
                  | None => stop
                  end
             else stop
         | "" => stop
         end) O s
  end.

Record pattern := { code : list op; groupindex : list (string * nat) }.

Record Match := { subject : string; spans : marks }.

(** [pattern.match(s)] *)
Definition match_ (p : pattern) (s : string) : option Match :=
  match run (code p) s [] with
  | Some ms => Some {| subject := s; spans := ms |}
  | None => None
  end.

Fixpoint mark (n : nat) (ms : marks) : option string :=
  match ms with
  | [] => None
  | (n', s) :: ms' => if (n' =? n)%nat then Some s else mark n ms'
  end.

(** [m.group(name)]: group [g] lies between the marks [2g-2] and [2g-1]. *)
Definition group (p : pattern) (m : Match) (name : string) : string :=
  match Dict.get name (groupindex p) with
  | Some g =>
      match mark (2 * g - 2) (spans m), mark (2 * g - 1) (spans m) with
      | Some from, Some to =>
          Str.take (String.length from - String.length to) from
      | _, _ => ""
      end
  | None => ""
  end.

Definition literal (s : string) : list op :=
  List.map Literal (list_ascii_of_string s).

End Re.

Definition dot (c : ascii) : bool := negb (Ascii.eqb c Char.LF).
Definition not_rbracket (c : ascii) : bool := negb (Ascii.eqb c "]"%char).

(** [TOFU_RE].  The pattern reads, from the left: [.*], [\[], the group
    [module] holding [[^\]]+], [\]], [\s+], [tofu:], [\s], and the group
    [message] holding [.*]. *)
Definition TOFU_RE : Re.pattern :=
  {| Re.code :=
       ([Re.MaxRepeat 0 dot; Re.Literal "["%char;
         Re.Mark 0; Re.MaxRepeat 1 not_rbracket; Re.Mark 1;
         Re.Literal "]"%char; Re.MaxRepeat 1 Char.isspace]
        ++ Re.literal "tofu:"
        ++ [Re.In Char.isspace;
            Re.Mark 2; Re.MaxRepeat 0 dot; Re.Mark 3])%list;
     Re.groupindex := [("module", 1%nat); ("message", 2%nat)] |}.

(** ** Data model *)

Record StackDiffs := {
  stable : list string;
  diffs : list (string * list string)
}.

Record CommandResult := {
  code : Z;
  stdout : string;
  stderr : string
}.

Inductive ChangeState := CLEAN | DIRTY | ERROR.

Definition ChangeState_value (s : ChangeState) : string :=
  match s with
  | CLEAN => "NO_CHANGES"
  | DIRTY => "HAS_CHANGES"
  | ERROR => "HAS_ERROR"
  end.

(** A path names the text of a regular file, or nothing. *)
Abbreviation filesystem := (gmap string string).

(** ** Log summarizer *)

Definition _normalize_diff_line (line : string) : string :=
  let stripped := Str.lstrip line in
  let replace := [("~", "!"); ("+", "+"); ("-", "-")] in
  match List.find (fun kv => Str.startswith (fst kv) stripped) replace with
  | Some (_, v) => v ++ Str.replace_first stripped (Str.tail stripped) line
  | None => line
  end.

(** [entries[unit].append(message)] on a [defaultdict(list)] *)
Definition append_entry (unit message : string)
    (entries : list (string * list string)) : list (string * list string) :=
  Dict.set unit (default [] (Dict.get unit entries) ++ [message])%list entries.

Definition collect_line (entries : list (string * list string)) (ln : string)
    : list (string * list string) :=
  match Re.match_ TOFU_RE ln with
  | None => entries
  | Some m =>
      let unit := Str.replace ".terragrunt-stack/" "" (Re.group TOFU_RE m "module") in
      append_entry unit (Re.group TOFU_RE m "message") entries
  end.

(** The argument is the text of the opened file. *)
Definition _collect_unit_entries (text : string) : list (string * list string) :=
  fold_left collect_line (Str.lines text) [].

Definition no_changes (msg : string) : bool :=
  Str.startswith "no changes" (Str.lower (Str.strip msg)).

Definition summarize_unit (acc : StackDiffs) (item : string * list string)
    : StackDiffs :=
  let '(unit, msgs) := item in
  if existsb no_changes msgs
  then {| stable := (stable acc ++ [unit])%list; diffs := diffs acc |}
  else {| stable := stable acc;
          diffs := Dict.set unit (List.map _normalize_diff_line msgs) (diffs acc) |}.

Definition _summarize_unit_logs (fs : filesystem) (log_file : string)
    : option StackDiffs :=
  match fs !! log_file with
  | None => None
  | Some text =>
      let grouped := _collect_unit_entries text in
      Some (fold_left summarize_unit grouped {| stable := []; diffs := [] |})
  end.

(** ** Report renderer *)

(** [jinja2.Template(GITHUB_PR_COMMENT_TMPL).render(state=..., diffs=...)],
    with the template's whitespace control applied: a tag closed by a dash
    removes the white space that follows it, and the single line feed that
    ends the template source is dropped.  [diffs] is [None] or an object,
    which is true; a list or a dict is true when it is not empty. *)
Definition render (state : string) (diffs_ : option StackDiffs) : string :=
  let nl := Str.nl in
  let unchanged :=
    match diffs_ with
    | Some {| stable := (_ :: _) as units |} =>
        Str.join (List.map (fun unit => "- `" ++ unit ++ "`" ++ nl) units)
    | _ => "None" ++ nl
    end in
  let changed :=
    match diffs_ with
    | Some {| diffs := (_ :: _) as items |} =>
        Str.join (List.map (fun '(unit, lines) =>
          "- `" ++ unit ++ "`" ++ nl ++ nl
          ++ "<details>" ++ nl
          ++ "<summary>Changes to " ++ unit ++ "</summary>" ++ nl ++ nl
          ++ "```diff" ++ nl
          ++ Str.join (List.map (fun ln => ln ++ nl) lines)
          ++ "```" ++ nl ++ nl
          ++ "</details>" ++ nl ++ nl) items)
    | _ => "None" ++ nl
    end in
  nl ++
  (if String.eqb state "NO_CHANGES" then "No changes detected." ++ nl
   else if String.eqb state "HAS_ERROR" then "Errors found. See logs." ++ nl
   else "Unchanged units:" ++ nl ++ nl
        ++ unchanged
        ++ nl ++ nl ++ nl ++ "Changed units:" ++ nl ++ nl
        ++ changed
        ++ nl ++ nl).

(** ** The report command *)

Inductive report_outcome :=
| BadParameter (msg : string)       (* [raise typer.BadParameter(msg)] *)
| Wrote (fs : filesystem).           (* returned, the output file written *)

Definition plan_github_pr_comment (fs : filesystem) (log_file output : string)
    : report_outcome :=
  match fs !! log_file with
  | None => BadParameter ("Log file not found: " ++ log_file)
  | Some content =>
      if negb (Str.contains "terragrunt-exit-code=" content)
      then BadParameter "Log file missing terragrunt-exit-code marker"
      else
        let state :=
          if Str.contains "terragrunt-exit-code=0" content then Some "NO_CHANGES"
          else if Str.contains "terragrunt-exit-code=1" content then Some "HAS_ERROR"
          else if Str.contains "terragrunt-exit-code=2" content then Some "HAS_CHANGES"
          else None in
        match state with
        | None => BadParameter "Unexpected exit code marker in log file"
        | Some state =>
            let diffs := _summarize_unit_logs fs log_file in
            let rendered := render state diffs in
            Wrote (<[output := rendered]> fs)
        end
  end.

(** ** Stream relay *)

(** What a launched child does: the lines [readline] delivers on each pipe
    until end of file, and the return code. *)
Record process := {
  returncode : Z;
  out_pipe : list string;
  err_pipe : list string
}.

Record world := {
  files : filesystem;
  sys_stdout : string;
  sys_stderr : string
}.

Inductive stream := Out | Err.

(** Writing to a handle opened for appending. *)
Definition append_file (path text : string) (fs : filesystem) : filesystem :=
  <[path := default "" (fs !! path) ++ text]> fs.

(** [Path.touch] *)
Definition touch (path : string) (fs : filesystem) : filesystem :=
  match fs !! path with
  | Some _ => fs
  | None => <[path := ""]> fs
  end.

Definition _write_exit_marker (path : string) (code : Z) (fs : filesystem)
    : filesystem :=
  append_file path ("terragrunt-exit-code=" ++ Str.of_int code ++ Str.nl) fs.

(** The state of the two drain threads: their private collectors and the
    world they write to. *)
Record relay := {
  out_lines : list string;
  err_lines : list string;
  now : world
}.

(** One turn of the loop of [_drain], for the line [ln] read from pipe [t]. *)
Definition drain_line (quiet : bool) (log_fh : option string)
    (t : stream) (ln : string) (st : relay) : relay :=
  let w := now st in
  let w1 :=
    if quiet then w
    else match t with
         | Out => {| files := files w; sys_stdout := sys_stdout w ++ ln;
                     sys_stderr := sys_stderr w |}
         | Err => {| files := files w; sys_stdout := sys_stdout w;
                     sys_stderr := sys_stderr w ++ ln |}
         end in
  let w2 :=
    match log_fh with
    | Some path => {| files := append_file path ln (files w1);
                      sys_stdout := sys_stdout w1; sys_stderr := sys_stderr w1 |}
    | None => w1
    end in
  match t with
  | Out => {| out_lines := (out_lines st ++ [ln])%list; err_lines := err_lines st;
             now := w2 |}
  | Err => {| out_lines := out_lines st; err_lines := (err_lines st ++ [ln])%list;
             now := w2 |}
  end.

Definition drain_rest (quiet : bool) (log_fh : option string)
    (t : stream) (pipe : list string) (st : relay) : relay :=
  fold_left (fun st ln => drain_line quiet log_fh t ln st) pipe st.

(** The two threads run until both pipes are at end of file.  The schedule
    names the thread that takes each turn; a thread whose pipe is exhausted
    has finished and its turns pass; when the schedule ends, the joins wait
    for what is left of each pipe. *)
Fixpoint drains (quiet : bool) (log_fh : option string) (sched : list stream)
    (outp errp : list string) (st : relay) : relay :=
  match sched with
  | [] => drain_rest quiet log_fh Err errp (drain_rest quiet log_fh Out outp st)
  | Out :: sched' =>
      match outp with
      | ln :: outp' => drains quiet log_fh sched' outp' errp (drain_line quiet log_fh Out ln st)
      | [] => drains quiet log_fh sched' outp errp st
      end
  | Err :: sched' =>
      match errp with
      | ln :: errp' => drains quiet log_fh sched' outp errp' (drain_line quiet log_fh Err ln st)
      | [] => drains quiet log_fh sched' outp errp st
      end
  end.

(** [run_live(cmd, log_file=..., quiet=...)], where [proc] is the child that
    [Popen(cmd)] launched and [sched] the way its two pipes were served. *)
Definition run_live (proc : process) (sched : list stream)
    (log_file : option string) (quiet : bool) (w : world)
    : CommandResult * world :=
  let w0 :=
    match log_file with
    | Some path => {| files := touch path (files w);
                      sys_stdout := sys_stdout w; sys_stderr := sys_stderr w |}
    | None => w
    end in
  let st := drains quiet log_file sched (out_pipe proc) (err_pipe proc)
              {| out_lines := []; err_lines := []; now := w0 |} in
  ({| code := returncode proc;
      stdout := Str.join (out_lines st);
      stderr := Str.join (err_lines st) |}, now st).

(** ** Runner *)

Section Runner.

(** The children that [Popen] launches for a command line, and the way the
    relay's threads get to serve their pipes. *)
Variable popen : list string -> process.
Variable scheduler : list string -> list stream.

Definition plan_cmd (stack_root : string) : list string :=
  ["terragrunt"; "--working-dir=" ++ stack_root; "stack"; "run"; "--";
   "plan"; "-detailed-exitcode"; "-out=tofu.plan"].

Definition show_cmd (stack_root : string) : list string :=
  ["terragrunt"; "--no-color"; "--working-dir=" ++ stack_root; "stack"; "run";
   "--"; "show"; "tofu.plan"].

Inductive plan_outcome :=
| Returned (s : ChangeState)
| Exit (code : Z).                 (* [raise typer.Exit(code=...)] *)

(** [Runner(stack_root).plan(log_file=...)].  The status lines given to
    [typer.echo] are not modelled. *)
Definition Runner_plan (stack_root : string) (log_file : option string)
    (w : world) : plan_outcome * world :=
  let w1 :=
    match log_file with
    | Some path => {| files := delete path (files w);
                      sys_stdout := sys_stdout w; sys_stderr := sys_stderr w |}
    | None => w
    end in
  let cmd := plan_cmd stack_root in
  let '(result, w2) := run_live (popen cmd) (scheduler cmd) log_file false w1 in
  let w3 :=
    match log_file with
    | Some path =>
        if negb (code result =? 1)%Z then
          let cmd := show_cmd stack_root in
          let '(_, w') := run_live (popen cmd) (scheduler cmd) log_file true w2 in
          {| files := _write_exit_marker path (code result) (files w');
             sys_stdout := sys_stdout w'; sys_stderr := sys_stderr w' |}
        else w2
    | None => w2
    end in
  if (code result =? 0)%Z then (Returned CLEAN, w3)
  else if (code result =? 2)%Z then (Returned DIRTY, w3)
  else
    let w4 :=
      match log_file, stderr result with
      | None, String _ _ =>
          {| files := files w3; sys_stdout := sys_stdout w3;
             sys_stderr := sys_stderr w3 ++ stderr result |}
      | _, _ => w3
      end in
    (Exit 1, w4).

End Runner.

Section Apply.

Variable popen : list string -> process.
Variable scheduler : list string -> list stream.

Definition apply_cmd (stack_root : string) (non_interactive : bool) : list string :=
  let tg_args := ["--working-dir=" ++ stack_root] in
  let tg_args :=
    if non_interactive then (tg_args ++ ["--non-interactive"])%list else tg_args in
  ("terragrunt" :: tg_args ++ ["stack"; "run"; "--"; "apply"])%list.

(** [Runner(stack_root).apply(non_interactive=...)]: [None] when the call
    returns, the code of [typer.Exit] when it raises. *)
Definition Runner_apply (stack_root : string) (non_interactive : bool)
    (w : world) : option Z * world :=
  let cmd := apply_cmd stack_root non_interactive in
  let '(result, w1) := run_live (popen cmd) (scheduler cmd) None false w in
  if negb (code result =? 0)%Z then (Some (code result), w1) else (None, w1).

End Apply.

(** ** The specification's wording, for comparison *)

(** "If the line (after stripping leading whitespace) begins with [~],
    replace that leading character with [!] (preserving the rest of the line
    and any original leading whitespace); [+] and [-] prefixes pass through
    unchanged." *)
Definition spec_normalize_diff_line (line : string) : string :=
  let stripped := Str.lstrip line in
  let leading := Str.take (String.length line - String.length stripped) line in
  if Str.startswith "~" stripped then leading ++ "!" ++ Str.tail stripped
  else line.

(** "Case-insensitively and after trimming leading whitespace, begins with
    [no changes]." *)
Definition spec_no_changes (msg : string) : bool :=
  Str.startswith "no changes" (Str.lower (Str.lstrip msg)).

(** The unit name a matched line is filed under. *)
Definition unit_of (m : Re.Match) : string :=
  Str.replace ".terragrunt-stack/" "" (Re.group TOFU_RE m "module").

(** The sentinel line for the code text [cs]. *)
Definition sentinel (cs : string) : string :=
  "terragrunt-exit-code=" ++ cs ++ Str.nl.

(** The order in which the lines of the two pipes reach the log file under
    a schedule. *)
Fixpoint arrival (sched : list stream) (outp errp : list string) : list string :=
  match sched with
  | [] => (outp ++ errp)%list
  | Out :: sched' =>
      match outp with
      | ln :: outp' => ln :: arrival sched' outp' errp
      | [] => arrival sched' outp errp
      end
  | Err :: sched' =>
      match errp with
      | ln :: errp' => ln :: arrival sched' outp errp'
      | [] => arrival sched' outp errp
      end
  end.

(** The world with the file at [path] removed. *)
Definition unlinked (path : string) (w : world) : world :=
  {| files := delete path (files w);
     sys_stdout := sys_stdout w; sys_stderr := sys_stderr w |}.

(** A world with no file and nothing on the console. *)
Definition empty_world : world :=
  {| files := ∅; sys_stdout := ""; sys_stderr := "" |}.

(** A failing plan: one error line, return code 1, whatever the command. *)
Definition failing_plan (cmd : list string) : process :=
  {| returncode := 1;
     out_pipe := [];
     err_pipe := ["[unit-a] tofu: Error: boom" ++ Str.nl] |}.

(** The characters of a decimal code: the digits and the minus sign. *)
Definition code_char (c : ascii) : bool :=
  let n := N_of_ascii c in
  (n =? 45)%N || (48 <=? n)%N && (n <=? 57)%N.

(** The two-line log of the round-trip example. *)
Definition round_trip_log : string :=
  "[unit-a] tofu: No changes. Infrastructure is up-to-date." ++ Str.nl
  ++ "[unit-b] tofu: ~ update resource " ++ Str.dq ++ "x" ++ Str.dq ++ Str.nl.

(** ** Notions used to state further properties *)

(** A plan with pending changes: one line on standard output, return code
    2, whatever the command. *)
Definition dirty_plan (cmd : list string) : process :=
  {| returncode := 2;
     out_pipe := ["[unit-b] tofu: ~ x" ++ Str.nl];
     err_pipe := [] |}.

(** The child of [failing_plan]. *)
Definition failing_plan_process : process := failing_plan [].


(** The unit and the message a line is parsed into, when it matches. *)
Definition parse_line (ln : string) : option (string * string) :=
  match Re.match_ TOFU_RE ln with
  | Some m => Some (unit_of m, Re.group TOFU_RE m "message")
  | None => None
  end.

(** The parsed lines of a text, in the order of the file. *)
Definition parsed_lines (ls : list string) : list (string * string) :=
  flat_map (fun ln => match parse_line ln with Some p => [p] | None => [] end) ls.

Definition parsed (text : string) : list (string * string) :=
  parsed_lines (Str.lines text).

(** The messages parsed for a unit, in the order of the file. *)
Definition messages_of (u : string) (ps : list (string * string)) : list string :=
  List.map snd (List.filter (fun p => String.eqb (fst p) u) ps).

(** The names of a list in the order of their first occurrence, leaving out
    those already seen. *)
Fixpoint first_seen (seen l : list string) : list string :=
  match l with
  | [] => []
  | x :: l' =>
      if existsb (String.eqb x) seen then first_seen seen l'
      else x :: first_seen (x :: seen) l'
  end.

(** The number of messages a grouping holds. *)
Definition total_messages (d : list (string * list string)) : nat :=
  list_sum (List.map (fun it => List.length (snd it)) d).

(** A unit is stable when one of its messages passes the no-changes test. *)
Definition is_stable (it : string * list string) : bool :=
  existsb no_changes (snd it).

(** The diffs entry of a changed unit. *)
Definition normalized (it : string * list string) : string * list string :=
  (fst it, List.map _normalize_diff_line (snd it)).

(** [l] merges [a] and [b], keeping the order of each. *)
Inductive interleaving {A : Type} : list A -> list A -> list A -> Prop :=
| interleaving_nil : interleaving [] [] []
| interleaving_left x a b l :
    interleaving a b l -> interleaving (x :: a) b (x :: l)
| interleaving_right x a b l :
    interleaving a b l -> interleaving a (x :: b) (x :: l).

(** The shape of the lines that [TOFU_RE] matches: a prefix without line
    feed, a bracketed module name, white space, [tofu:], one white space
    character, and the rest. *)
Definition tofu_shape (ln : string) : Prop :=
  exists pre module ws sp rest,
    ln = pre ++ "[" ++ module ++ "]" ++ ws ++ "tofu:" ++ String sp rest
    /\ Str.all dot pre = true
    /\ module <> "" /\ Str.all not_rbracket module = true
    /\ ws <> "" /\ Str.all Char.isspace ws = true
    /\ Char.isspace sp = true.

(** ** The summarizer on paths that cannot be read

    The file system above holds readable texts only.  A path may also name
    a directory, or a file whose bytes are not valid UTF-8; [exists] is true
    of both, and opening or reading them raises.  The code catches no
    exception, so the summarizer raises with them. *)

Inductive node :=
| TextFile (text : string)     (* a regular file, valid UTF-8 *)
| BadFile                       (* a regular file, not valid UTF-8 *)
| Directory.

Abbreviation disk := (gmap string node).

Inductive exn := FileNotFoundError | IsADirectoryError | UnicodeDecodeError.

Inductive result (A : Type) :=
| Returns (a : A)
| Raises (e : exn).

Arguments Returns {A} a.
Arguments Raises {A} e.

(** [path.exists()] *)
Definition path_exists (d : disk) (path : string) : bool :=
  match d !! path with
  | Some _ => true
  | None => false
  end.

(** [path.open("r", encoding="utf-8")] and the iteration over its lines:
    opening a directory raises, and so does decoding bytes that are not
    UTF-8. *)
Definition read_lines (d : disk) (path : string) : result (list string) :=
  match d !! path with
  | Some (TextFile text) => Returns (Str.lines text)
  | Some BadFile => Raises UnicodeDecodeError
  | Some Directory => Raises IsADirectoryError
  | None => Raises FileNotFoundError
  end.

(** [_collect_unit_entries(log_file)], with what opening and reading raise. *)
Definition collect_unit_entries_on (d : disk) (log_file : string)
    : result (list (string * list string)) :=
  match read_lines d log_file with
  | Returns ls => Returns (fold_left collect_line ls [])
  | Raises e => Raises e
  end.

(** [_summarize_unit_logs(log_file)], with what opening and reading raise. *)
Definition summarize_unit_logs_on (d : disk) (log_file : string)
    : result (option StackDiffs) :=
  if negb (path_exists d log_file) then Returns None
  else
    match collect_unit_entries_on d log_file with
    | Raises e => Raises e
    | Returns grouped =>
        Returns (Some (fold_left summarize_unit grouped
                         {| stable := []; diffs := [] |}))
    end.

(** The readable texts of a disk. *)
Definition readable (d : disk) : filesystem :=
  omap (fun n => match n with TextFile text => Some text | _ => None end) d.

(** * Properties *)

Local Arguments String.append !s1 s2 /.

(** ** Strings *)

Section StrFacts.

Lemma append_nil_r (s : string) : s ++ "" = s.
Proof. induction s as [|c s IH]; simpl; congruence. Qed.

Lemma append_assoc (a b c : string) : (a ++ b) ++ c = a ++ b ++ c.
Proof. induction a as [|x a IH]; simpl; congruence. Qed.

Lemma startswith_refl (p s : string) : Str.startswith p (p ++ s) = true.
Proof.
  induction p as [|c p IH]; simpl; [reflexivity|].
  now rewrite Ascii.eqb_refl.
Qed.

Lemma startswith_self (p : string) : Str.startswith p p = true.
Proof.
  induction p as [|c p IH]; simpl; [reflexivity|].
  now rewrite Ascii.eqb_refl.
Qed.

Lemma drop_length (s : string) : Str.drop (String.length s) s = "".
Proof. induction s; simpl; auto. Qed.

Lemma startswith_iff (p s : string) :
  Str.startswith p s = true <-> exists t, s = p ++ t.
Proof.
  split.
  - revert s; induction p as [|c p IH]; intros s H; simpl in *.
    + now exists s.
    + destruct s as [|d s]; [discriminate|].
      apply andb_true_iff in H as [Hc Hp].
      apply Ascii.eqb_eq in Hc as ->.
      destruct (IH _ Hp) as [t ->]. now exists t.
  - intros [t ->]. apply startswith_refl.
Qed.

(** A prefix of a prefix. *)
Lemma startswith_app_l (p q s : string) :
  Str.startswith (p ++ q) s = true -> Str.startswith p s = true.
Proof.
  rewrite !startswith_iff. intros [t ->].
  exists (q ++ t). apply append_assoc.
Qed.

Lemma startswith_cancel (p q s : string) :
  Str.startswith (p ++ q) (p ++ s) = Str.startswith q s.
Proof.
  induction p as [|c p IH]; simpl; [reflexivity|].
  now rewrite Ascii.eqb_refl.
Qed.

Lemma contains_cons (p : string) (c : ascii) (s : string) :
  Str.contains p (String c s)
  = Str.startswith p (String c s) || Str.contains p s.
Proof. reflexivity. Qed.

Lemma contains_startswith (p s : string) :
  Str.startswith p s = true -> Str.contains p s = true.
Proof. intros H. destruct s; simpl; now rewrite H. Qed.

Lemma contains_iff (p s : string) :
  Str.contains p s = true <-> exists a b, s = a ++ p ++ b.
Proof.
  split.
  - induction s as [|c s IH]; simpl; intros H.
    + rewrite orb_false_r in H. apply startswith_iff in H as [t Ht].
      now exists "", t.
    + apply orb_true_iff in H as [H|H].
      * apply startswith_iff in H as [t Ht]. now exists "", t.
      * destruct (IH H) as (a & b & ->). now exists (String c a), b.
  - intros (a & b & ->). induction a as [|c a IH]; simpl.
    + apply contains_startswith, startswith_refl.
    + rewrite IH. apply orb_true_r.
Qed.

Lemma contains_app_l (p q s : string) :
  Str.contains (p ++ q) s = true -> Str.contains p s = true.
Proof.
  rewrite !contains_iff. intros (a & b & ->).
  exists a, (q ++ b). now rewrite append_assoc.
Qed.

Lemma all_app (f : ascii -> bool) (a b : string) :
  Str.all f (a ++ b) = Str.all f a && Str.all f b.
Proof.
  induction a as [|c a IH]; simpl; [reflexivity|].
  now rewrite IH, andb_assoc.
Qed.

Lemma lstrip_spaces (ws s : string) :
  Str.all Char.isspace ws = true -> Str.lstrip (ws ++ s) = Str.lstrip s.
Proof.
  induction ws as [|c ws IH]; simpl; [reflexivity|].
  intros H. apply andb_true_iff in H as [Hc Hws].
  rewrite Hc. auto.
Qed.

Lemma lstrip_all_spaces (ws : string) :
  Str.all Char.isspace ws = true -> Str.lstrip ws = "".
Proof.
  intros H. rewrite <- (append_nil_r ws). now rewrite lstrip_spaces.
Qed.

(** What [lstrip] removes is white space, and what it leaves does not
    start with white space. *)
Lemma lstrip_split (s : string) :
  exists ws, s = ws ++ Str.lstrip s /\ Str.all Char.isspace ws = true.
Proof.
  induction s as [|c s (ws & E & Hws)]; simpl.
  - now exists "".
  - destruct (Char.isspace c) eqn:Hc.
    + exists (String c ws). split.
      * simpl. f_equal. exact E.
      * simpl. now rewrite Hc.
    + now exists "".
Qed.

Lemma lstrip_head (s : string) (c : ascii) (r : string) :
  Str.lstrip s = String c r -> Char.isspace c = false.
Proof.
  induction s as [|d s IH]; simpl; [discriminate|].
  destruct (Char.isspace d) eqn:Hd; [exact IH|].
  intros [= <- _]. exact Hd.
Qed.

(** Every line is white space alone, or white space and then a character
    that is not white space. *)
Lemma line_shape (line : string) :
  exists ws,
    Str.all Char.isspace ws = true
    /\ (line = ws
        \/ exists c rest, line = ws ++ String c rest /\ Char.isspace c = false).
Proof.
  destruct (lstrip_split line) as (ws & E & Hws).
  exists ws. split; [exact Hws|].
  destruct (Str.lstrip line) as [|c rest] eqn:L.
  - left. now rewrite append_nil_r in E.
  - right. exists c, rest. split; [exact E|]. exact (lstrip_head line c rest L).
Qed.

(** The only occurrence of what [lstrip] leaves is at the end of the
    leading white space. *)
Lemma replace_first_stripped (ws : string) (c : ascii) (r new : string) :
  Str.all Char.isspace ws = true -> Char.isspace c = false ->
  Str.replace_first (String c r) new (ws ++ String c r) = ws ++ new.
Proof.
  intros Hws Hc. induction ws as [|w ws IH].
  - cbn [String.append Str.replace_first].
    rewrite startswith_self, drop_length. apply append_nil_r.
  - simpl in Hws. apply andb_true_iff in Hws as [Hw Hws].
    cbn [String.append Str.replace_first Str.startswith].
    destruct (Ascii.eqb c w) eqn:E.
    + apply Ascii.eqb_eq in E. congruence.
    + cbn [andb]. now rewrite IH.
Qed.

End StrFacts.

(** ** Diff-line normalization *)

Section Normalize.

Lemma normalize_at (ws : string) (c : ascii) (rest : string) :
  Str.all Char.isspace ws = true -> Char.isspace c = false ->
  _normalize_diff_line (ws ++ String c rest)
  = match List.find (fun kv : string * string => Str.startswith (fst kv) (String c rest))
            [("~", "!"); ("+", "+"); ("-", "-")] with
    | Some (_, v) => v ++ ws ++ rest
    | None => ws ++ String c rest
    end.
Proof.
  intros Hws Hc. unfold _normalize_diff_line.
  rewrite (lstrip_spaces ws (String c rest) Hws).
  cbn [Str.lstrip]. rewrite Hc.
  destruct (List.find _ _) as [[k v]|]; [|reflexivity].
  now rewrite (replace_first_stripped ws c rest (Str.tail (String c rest)) Hws Hc).
Qed.

Lemma normalize_blank (ws : string) :
  Str.all Char.isspace ws = true -> _normalize_diff_line ws = ws.
Proof.
  intros Hws. unfold _normalize_diff_line.
  now rewrite (lstrip_all_spaces ws Hws).
Qed.

End Normalize.

(** C2 (as the code has it).  When the line, after stripping leading white
    space, begins with [~], [+] or [-], the result is the marker ([!] for
    [~], the same character for [+] and [-]) put at the front of the line,
    then the original leading white space, then the rest of the line after
    the marker.  So without leading white space [~] becomes [!] in place and
    [+] and [-] lines are unchanged.  Every other line is unchanged. *)
Theorem normalize_diff_line_marker_first (ws rest : string) :
  Str.all Char.isspace ws = true ->
  _normalize_diff_line (ws ++ "~" ++ rest) = "!" ++ ws ++ rest
  /\ _normalize_diff_line (ws ++ "+" ++ rest) = "+" ++ ws ++ rest
  /\ _normalize_diff_line (ws ++ "-" ++ rest) = "-" ++ ws ++ rest
  /\ _normalize_diff_line ("~" ++ rest) = "!" ++ rest
  /\ _normalize_diff_line ("+" ++ rest) = "+" ++ rest
  /\ _normalize_diff_line ("-" ++ rest) = "-" ++ rest
  /\ (forall c : ascii,
        Char.isspace c = false -> c <> "~"%char -> c <> "+"%char -> c <> "-"%char ->
        _normalize_diff_line (ws ++ String c rest) = ws ++ String c rest)
  /\ _normalize_diff_line ws = ws.
Proof.
  intros Hws.
  repeat match goal with |- _ /\ _ => split end.
  - apply (normalize_at ws "~" rest Hws). reflexivity.
  - apply (normalize_at ws "+" rest Hws). reflexivity.
  - apply (normalize_at ws "-" rest Hws). reflexivity.
  - apply (normalize_at "" "~" rest); reflexivity.
  - apply (normalize_at "" "+" rest); reflexivity.
  - apply (normalize_at "" "-" rest); reflexivity.
  - intros c Hc H1 H2 H3. rewrite (normalize_at ws c rest Hws Hc).
    cbn [List.find fst Str.startswith].
    apply Ascii.eqb_neq in H1, H2, H3.
    rewrite (Ascii.eqb_sym "~" c), (Ascii.eqb_sym "+" c), (Ascii.eqb_sym "-" c).
    now rewrite H1, H2, H3.
  - now apply normalize_blank.
Qed.

Lemma normalize_diff_line_marker_first_witness :
  Str.all Char.isspace "  " = true
  /\ _normalize_diff_line "  ~ x" = "!   x"
  /\ _normalize_diff_line "  + y" = "+   y".
Proof.
  split; [reflexivity|].
  split.
  - exact (proj1 (normalize_diff_line_marker_first "  " " x" eq_refl)).
  - exact (proj1 (proj2 (normalize_diff_line_marker_first "  " " y" eq_refl))).
Defined.

(** C2 (as the specification words it) fails on an indented line: the marker
    does not stay behind the leading white space, and an indented [+] line
    does not pass through unchanged. *)
Lemma normalize_diff_line_indented_counterexample :
  _normalize_diff_line "  ~ x" <> spec_normalize_diff_line "  ~ x"
  /\ _normalize_diff_line "  + y" <> "  + y".
Proof. split; vm_compute; discriminate. Qed.

(** ** Dictionaries *)

Section DictFacts.
Context {V : Type}.
Implicit Types (d : list (string * V)) (k : string) (v : V).

Lemma keys_set k v d k' :
  In k' (Dict.keys (Dict.set k v d)) <-> k' = k \/ In k' (Dict.keys d).
Proof.
  induction d as [|[k0 v0] d IH]; simpl.
  - intuition.
  - destruct (String.eqb k0 k) eqn:E; simpl.
    + apply String.eqb_eq in E. subst. intuition.
    + rewrite IH. intuition.
Qed.

Lemma NoDup_keys_set k v d :
  List.NoDup (Dict.keys d) -> List.NoDup (Dict.keys (Dict.set k v d)).
Proof.
  induction d as [|[k0 v0] d IH]; simpl; intros H.
  - apply NoDup_cons_iff. split; [intros []|constructor].
  - apply NoDup_cons_iff in H as [Hn Hd].
    destruct (String.eqb k0 k) eqn:E; simpl.
    + apply NoDup_cons_iff. now split.
    + apply NoDup_cons_iff. split; [|auto].
      intros Hin. apply (proj1 (keys_set k v d k0)) in Hin.
      destruct Hin as [->|Hin]; [|auto].
      now rewrite String.eqb_refl in E.
Qed.

Lemma get_In k v d : Dict.get k d = Some v -> In (k, v) d.
Proof.
  induction d as [|[k0 v0] d IH]; simpl; [discriminate|].
  destruct (String.eqb k0 k) eqn:E.
  - apply String.eqb_eq in E. intros [= ->]. left. congruence.
  - auto.
Qed.

Lemma In_get k v d :
  List.NoDup (Dict.keys d) -> In (k, v) d -> Dict.get k d = Some v.
Proof.
  induction d as [|[k0 v0] d IH]; simpl; intros H Hin; [destruct Hin|].
  apply NoDup_cons_iff in H as [Hn Hd].
  destruct Hin as [[= -> ->]|Hin].
  - now rewrite String.eqb_refl.
  - destruct (String.eqb k0 k) eqn:E; [|auto].
    apply String.eqb_eq in E. subst. exfalso. apply Hn.
    change k with (fst (k, v)). now apply in_map.
Qed.

(** A key has one value. *)
Lemma In_functional k v v' d :
  List.NoDup (Dict.keys d) -> In (k, v) d -> In (k, v') d -> v = v'.
Proof.
  intros H H1 H2.
  apply (In_get _ _ _ H) in H1. apply (In_get _ _ _ H) in H2. congruence.
Qed.

End DictFacts.

(** ** Grouping *)

Section Collect.
Implicit Types (entries : list (string * list string)) (ls : list string).

Lemma collect_line_keys entries ln u :
  In u (Dict.keys (collect_line entries ln))
  <-> In u (Dict.keys entries)
      \/ exists m, Re.match_ TOFU_RE ln = Some m /\ u = unit_of m.
Proof.
  unfold collect_line. destruct (Re.match_ TOFU_RE ln) as [m|].
  - unfold append_entry. rewrite keys_set. split.
    + intros [->|H]; [right; now exists m|now left].
    + intros [H|(m' & [= <-] & ->)]; [now right|now left].
  - split; [now left|]. now intros [H|(m' & [=] & _)].
Qed.

Lemma collect_keys ls entries u :
  In u (Dict.keys (fold_left collect_line ls entries))
  <-> In u (Dict.keys entries)
      \/ exists ln m, In ln ls /\ Re.match_ TOFU_RE ln = Some m /\ u = unit_of m.
Proof.
  revert entries. induction ls as [|ln ls IH]; intros entries; simpl.
  - split; [now left|]. now intros [H|(ln & m & [] & _)].
  - rewrite IH, collect_line_keys. split.
    + intros [[H|(m & Hm & ->)]|(l & m & Hl & Hm & ->)].
      * now left.
      * right. exists ln, m. auto.
      * right. exists l, m. auto.
    + intros [H|(l & m & [<-|Hl] & Hm & ->)].
      * left. now left.
      * left. right. now exists m.
      * right. now exists l, m.
Qed.

Lemma collect_NoDup ls entries :
  List.NoDup (Dict.keys entries) ->
  List.NoDup (Dict.keys (fold_left collect_line ls entries)).
Proof.
  revert entries. induction ls as [|ln ls IH]; intros entries H; simpl; [exact H|].
  apply IH. unfold collect_line.
  destruct (Re.match_ TOFU_RE ln); [|exact H].
  now apply NoDup_keys_set.
Qed.

Lemma collect_unmatched ls entries :
  (forall ln, In ln ls -> Re.match_ TOFU_RE ln = None) ->
  fold_left collect_line ls entries = entries.
Proof.
  revert entries. induction ls as [|ln ls IH]; intros entries H; simpl; [reflexivity|].
  unfold collect_line at 2. rewrite (H ln) by now left.
  apply IH. intros l Hl. apply H. now right.
Qed.

Lemma grouped_NoDup (text : string) :
  List.NoDup (Dict.keys (_collect_unit_entries text)).
Proof. apply collect_NoDup. constructor. Qed.

End Collect.

(** ** The no-changes test *)

Section NoChanges.

Lemma lower_space (c : ascii) : Char.isspace c = true -> Char.lower c = c.
Proof.
  destruct c as [[] [] [] [] [] [] [] []]; vm_compute;
    first [reflexivity | discriminate].
Qed.

(** What [rstrip] removes is white space. *)
Lemma rstrip_split (s : string) :
  exists w, s = Str.rstrip s ++ w /\ Str.all Char.isspace w = true.
Proof.
  induction s as [|c s (w & E & Hw)]; [now exists ""|].
  cbn [Str.rstrip]. destruct (Str.rstrip s) as [|d r].
  - simpl in E. subst w. destruct (Char.isspace c) eqn:Hc.
    + exists (String c s). simpl. now rewrite Hc.
    + now exists s.
  - exists w. split; [|exact Hw]. simpl. f_equal. exact E.
Qed.

(** A text without white space at its end. *)
Lemma rstrip_fixed_cons (c : ascii) (p : string) :
  Str.rstrip (String c p) = String c p ->
  Str.rstrip p = p /\ (p = "" -> Char.isspace c = false).
Proof.
  cbn [Str.rstrip]. destruct (Str.rstrip p) as [|d r] eqn:E.
  - destruct (Char.isspace c); [discriminate|].
    intros [= <-]. now split.
  - intros [= <-]. split; [reflexivity|discriminate].
Qed.

Lemma startswith_lower_spaces (p w : string) :
  p <> "" -> Str.rstrip p = p -> Str.all Char.isspace w = true ->
  Str.startswith p (Str.lower w) = false.
Proof.
  revert w. induction p as [|c p IH]; intros w Hne Hp Hw; [congruence|].
  destruct w as [|d w]; [reflexivity|].
  simpl in Hw. apply andb_true_iff in Hw as [Hd Hw].
  apply rstrip_fixed_cons in Hp as [Hp Hc].
  cbn [Str.lower Str.map Str.startswith]. rewrite (lower_space d Hd).
  destruct p as [|c' p].
  - destruct (Ascii.eqb c d) eqn:E; [|reflexivity].
    apply Ascii.eqb_eq in E. subst. rewrite Hc in Hd; [discriminate|reflexivity].
  - fold (Str.lower w). rewrite (IH w); [apply andb_false_r|discriminate|exact Hp|exact Hw].
Qed.

(** White space at the end of a text plays no part in whether it starts
    with a text that does not end in white space. *)
Lemma startswith_lower_trim (p r w : string) :
  Str.rstrip p = p -> Str.all Char.isspace w = true ->
  Str.startswith p (Str.lower (r ++ w)) = Str.startswith p (Str.lower r).
Proof.
  revert p. induction r as [|a r IH]; intros p Hp Hw.
  - cbn [String.append Str.lower Str.map]. destruct p as [|c p]; [reflexivity|].
    now apply startswith_lower_spaces.
  - destruct p as [|c p]; [reflexivity|].
    apply rstrip_fixed_cons in Hp as [Hp _].
    cbn [String.append Str.lower Str.map Str.startswith].
    fold (Str.lower (r ++ w)). fold (Str.lower r).
    now rewrite IH.
Qed.

(** The code trims both ends before the test; trimming the left end only,
    as the specification words it, gives the same answer. *)
Lemma no_changes_spec (msg : string) : no_changes msg = spec_no_changes msg.
Proof.
  unfold no_changes, spec_no_changes, Str.strip.
  destruct (rstrip_split (Str.lstrip msg)) as (w & E & Hw).
  rewrite E at 2.
  now rewrite startswith_lower_trim.
Qed.

Lemma existsb_no_changes (msgs : list string) :
  existsb no_changes msgs = true
  <-> exists msg, In msg msgs /\ spec_no_changes msg = true.
Proof.
  rewrite existsb_exists. split; intros (m & Hin & H); exists m;
    (split; [exact Hin|]); [rewrite <- no_changes_spec|rewrite no_changes_spec];
    exact H.
Qed.

End NoChanges.

(** ** Classification *)

Section Summarize.
Implicit Types (g : list (string * list string)) (acc : StackDiffs).

Lemma summarize_stable g acc u :
  In u (stable (fold_left summarize_unit g acc))
  <-> In u (stable acc)
      \/ exists msgs, In (u, msgs) g /\ existsb no_changes msgs = true.
Proof.
  revert acc. induction g as [|[k ms] g IH]; intros acc; simpl.
  - split; [now left|]. now intros [Ha|(ms & [] & _)].
  - rewrite IH. destruct (existsb no_changes ms) eqn:E; simpl.
    + rewrite in_app_iff. simpl. split.
      * intros [[Ha|[<-|[]]]|(ms' & Hin & Hb)].
        -- now left.
        -- right. exists ms. auto.
        -- right. exists ms'. auto.
      * intros [Ha|(ms' & [[= <- <-]|Hin] & Hb)].
        -- left. now left.
        -- left. right. now left.
        -- right. now exists ms'.
    + split.
      * intros [Ha|(ms' & Hin & Hb)]; [now left|]. right. exists ms'. auto.
      * intros [Ha|(ms' & [[= <- <-]|Hin] & Hb)]; [now left|congruence|].
        right. now exists ms'.
Qed.

Lemma summarize_diffs_keys g acc u :
  In u (Dict.keys (diffs (fold_left summarize_unit g acc)))
  <-> In u (Dict.keys (diffs acc))
      \/ exists msgs, In (u, msgs) g /\ existsb no_changes msgs = false.
Proof.
  revert acc. induction g as [|[k ms] g IH]; intros acc; simpl.
  - split; [now left|]. now intros [Ha|(ms & [] & _)].
  - rewrite IH. destruct (existsb no_changes ms) eqn:E; simpl.
    + split.
      * intros [Ha|(ms' & Hin & Hb)]; [now left|]. right. exists ms'. auto.
      * intros [Ha|(ms' & [[= <- <-]|Hin] & Hb)]; [now left|congruence|].
        right. now exists ms'.
    + rewrite keys_set. split.
      * intros [[->|Ha]|(ms' & Hin & Hb)].
        -- right. exists ms. auto.
        -- now left.
        -- right. exists ms'. auto.
      * intros [Ha|(ms' & [[= <- <-]|Hin] & Hb)].
        -- left. now right.
        -- left. now left.
        -- right. now exists ms'.
Qed.

Lemma summarize_found (fs : filesystem) (log_file text : string) :
  fs !! log_file = Some text ->
  _summarize_unit_logs fs log_file
  = Some (fold_left summarize_unit (_collect_unit_entries text)
            {| stable := []; diffs := [] |}).
Proof. intros H. unfold _summarize_unit_logs. now rewrite H. Qed.

End Summarize.

(** C1.  The two-line log of the round-trip example gives stable
    [unit-a] and the one-entry mapping from [unit-b] to its line with [~]
    turned into [!]; the same holds when the last line has no line feed. *)
Theorem summarize_round_trip (fs : filesystem) (log_file : string) :
  _summarize_unit_logs (<[log_file := round_trip_log]> fs) log_file
  = Some {| stable := ["unit-a"];
            diffs := [("unit-b", ["! update resource " ++ Str.dq ++ "x" ++ Str.dq])] |}
  /\ _summarize_unit_logs
       (<[log_file := "[unit-a] tofu: No changes. Infrastructure is up-to-date."
                      ++ Str.nl ++ "[unit-b] tofu: ~ update resource "
                      ++ Str.dq ++ "x" ++ Str.dq]> fs) log_file
     = Some {| stable := ["unit-a"];
               diffs := [("unit-b", ["! update resource " ++ Str.dq ++ "x" ++ Str.dq])] |}.
Proof.
  split.
  - rewrite (summarize_found _ log_file round_trip_log) by apply lookup_insert_eq.
    vm_compute. reflexivity.
  - erewrite summarize_found by apply lookup_insert_eq.
    vm_compute. reflexivity.
Qed.

(** C3.  A unit of the log, with the messages parsed for it, is put in the
    stable list exactly when one of its messages, lowered and with its
    leading white space trimmed, starts with [no changes]; otherwise it is a
    key of the diffs.  In particular the messages [no changes],
    [+ add resource y] make the unit stable. *)
Theorem stable_iff_some_no_changes
    (fs : filesystem) (log_file text unit : string) (msgs : list string) :
  fs !! log_file = Some text ->
  Dict.get unit (_collect_unit_entries text) = Some msgs ->
  exists sd,
    _summarize_unit_logs fs log_file = Some sd
    /\ (In unit (stable sd)
        <-> exists msg, In msg msgs /\ spec_no_changes msg = true)
    /\ (In unit (Dict.keys (diffs sd))
        <-> ~ exists msg, In msg msgs /\ spec_no_changes msg = true)
    /\ (msgs = ["no changes"; "+ add resource y"] -> In unit (stable sd)).
Proof.
  intros Hfs Hget. eexists. split; [exact (summarize_found fs log_file text Hfs)|].
  pose proof (grouped_NoDup text) as Hnd.
  pose proof (get_In _ _ _ Hget) as Hin.
  assert (S : In unit (stable (fold_left summarize_unit (_collect_unit_entries text)
                                 {| stable := []; diffs := [] |}))
              <-> exists msg, In msg msgs /\ spec_no_changes msg = true).
  { rewrite summarize_stable, <- existsb_no_changes. simpl. split.
    - intros [[]|(ms & Hms & E)].
      now rewrite (In_functional _ _ _ _ Hnd Hin Hms).
    - intros E. right. now exists msgs. }
  split; [exact S|]. split.
  - rewrite summarize_diffs_keys, <- existsb_no_changes. simpl. split.
    + intros [[]|(ms & Hms & E)].
      rewrite (In_functional _ _ _ _ Hnd Hin Hms). now rewrite E.
    + intros E. right. exists msgs. split; [exact Hin|].
      now destruct (existsb no_changes msgs).
  - intros ->. apply S. exists "no changes". split; [now left|reflexivity].
Qed.

Lemma stable_iff_some_no_changes_witness :
  exists sd,
    _summarize_unit_logs
      {[ "plan.log" := "[u] tofu: no changes" ++ Str.nl
                       ++ "[u] tofu: + add resource y" ++ Str.nl ]} "plan.log"
    = Some sd
    /\ In "u" (stable sd).
Proof.
  destruct (stable_iff_some_no_changes
              {[ "plan.log" := "[u] tofu: no changes" ++ Str.nl
                               ++ "[u] tofu: + add resource y" ++ Str.nl ]}
              "plan.log" _ "u" ["no changes"; "+ add resource y"]
              (lookup_singleton_eq _ _) eq_refl)
    as (sd & E & _ & _ & H).
  exists sd. split; [exact E|]. exact (H eq_refl).
Defined.

(** C8.  The names in the stable list and the keys of the diffs are exactly
    the module names of the matching lines with the stack marker removed,
    and no name is in both. *)
Theorem unit_names_stripped_and_disjoint
    (fs : filesystem) (log_file text : string) :
  fs !! log_file = Some text ->
  exists sd,
    _summarize_unit_logs fs log_file = Some sd
    /\ (forall u,
          In u (stable sd) \/ In u (Dict.keys (diffs sd))
          <-> exists ln m,
                In ln (Str.lines text)
                /\ Re.match_ TOFU_RE ln = Some m
                /\ u = Str.replace ".terragrunt-stack/" ""
                         (Re.group TOFU_RE m "module"))
    /\ (forall u, In u (stable sd) -> ~ In u (Dict.keys (diffs sd))).
Proof.
  intros Hfs. eexists. split; [exact (summarize_found fs log_file text Hfs)|].
  pose proof (grouped_NoDup text) as Hnd. split.
  - intros u. rewrite summarize_stable, summarize_diffs_keys. simpl.
    transitivity (In u (Dict.keys (_collect_unit_entries text))).
    + split.
      * intros [[[]|(ms & Hin & _)]|[[]|(ms & Hin & _)]];
          change u with (fst (u, ms)); now apply in_map.
      * intros Hin. apply in_map_iff in Hin as ([k ms] & <- & Hin). simpl.
        destruct (existsb no_changes ms) eqn:E.
        -- left. right. now exists ms.
        -- right. right. now exists ms.
    + unfold _collect_unit_entries. rewrite collect_keys. simpl.
      split; [intros [[]|H]; exact H|intros H; right; exact H].
  - intros u. rewrite summarize_stable, summarize_diffs_keys. simpl.
    intros [[]|(ms & Hin & E)] [[]|(ms' & Hin' & E')].
    rewrite (In_functional _ _ _ _ Hnd Hin Hin') in E. congruence.
Qed.

Lemma unit_names_stripped_and_disjoint_witness :
  exists sd,
    _summarize_unit_logs
      {[ "plan.log" := "[.terragrunt-stack/unit-a] tofu: No changes." ++ Str.nl ]}
      "plan.log" = Some sd
    /\ (In "unit-a" (stable sd) \/ In "unit-a" (Dict.keys (diffs sd))).
Proof.
  destruct (unit_names_stripped_and_disjoint
              {[ "plan.log" := "[.terragrunt-stack/unit-a] tofu: No changes." ++ Str.nl ]}
              "plan.log" _ (lookup_singleton_eq _ _))
    as (sd & E & H & _).
  exists sd. split; [exact E|]. apply H.
  exists ("[.terragrunt-stack/unit-a] tofu: No changes." ++ Str.nl).
  eexists. split; [now left|]. split; [vm_compute; reflexivity|].
  vm_compute. reflexivity.
Defined.

(** C9.  When no line of the log matches the pattern, the summary has an
    empty stable list and an empty diffs mapping. *)
Theorem summarize_no_matching_lines (fs : filesystem) (log_file text : string) :
  fs !! log_file = Some text ->
  (forall ln, In ln (Str.lines text) -> Re.match_ TOFU_RE ln = None) ->
  _summarize_unit_logs fs log_file = Some {| stable := []; diffs := [] |}.
Proof.
  intros Hfs Hno. rewrite (summarize_found fs log_file text Hfs).
  unfold _collect_unit_entries. now rewrite (collect_unmatched _ _ Hno).
Qed.

Lemma summarize_no_matching_lines_witness :
  _summarize_unit_logs
    {[ "plan.log" := "Initializing the backend..." ++ Str.nl
                     ++ "[unit-a] terraform: ready" ++ Str.nl
                     ++ "terragrunt-exit-code=0" ++ Str.nl ]} "plan.log"
  = Some {| stable := []; diffs := [] |}.
Proof.
  apply (summarize_no_matching_lines _ "plan.log" _ (lookup_singleton_eq _ _)).
  intros ln Hin. vm_compute in Hin.
  repeat (destruct Hin as [<-|Hin]; [vm_compute; reflexivity|]).
  destruct Hin.
Defined.

(** ** The exit-code marker *)

Section Marker.

(** Where a text starts a concatenation, it starts the left part or runs
    over its end. *)
Lemma startswith_straddle (m b y : string) :
  Str.startswith m (b ++ y) = true ->
  Str.startswith m b = true
  \/ ((String.length b < String.length m)%nat
      /\ Str.startswith (Str.drop (String.length b) m) y = true).
Proof.
  revert b. induction m as [|a m IH]; intros b H; [now left|].
  destruct b as [|c b].
  - right. split; [simpl; lia|exact H].
  - cbn [String.append Str.startswith] in H.
    apply andb_true_iff in H as [Hc H].
    destruct (IH b H) as [Hb|[Hlt Hd]].
    + left. simpl. now rewrite Hc.
    + right. split; [simpl; lia|exact Hd].
Qed.

(** No proper suffix of the marker starts the marker again. *)
Lemma marker_border_free (k : nat) (rest : string) :
  (1 <= k < 21)%nat ->
  Str.startswith (Str.drop k "terragrunt-exit-code=")
    ("terragrunt-exit-code=" ++ rest) = false.
Proof.
  intros Hk.
  do 21 (destruct k as [|k]; [first [lia | reflexivity]|]).
  lia.
Qed.

Lemma contains_no_head (c0 : ascii) (p s : string) :
  Str.all (fun c => negb (Ascii.eqb c0 c)) s = true ->
  Str.contains (String c0 p) s = false.
Proof.
  induction s as [|c s IH]; [reflexivity|].
  cbn [Str.all]. intros H. apply andb_true_iff in H as [Hc Hs].
  cbn [Str.contains Str.startswith].
  apply negb_true_iff in Hc. rewrite Hc. simpl. fold Str.contains. auto.
Qed.

Lemma all_impl (f g : ascii -> bool) (s : string) :
  (forall c, f c = true -> g c = true) ->
  Str.all f s = true -> Str.all g s = true.
Proof.
  intros Hfg. induction s as [|c s IH]; [reflexivity|].
  simpl. intros H. apply andb_true_iff in H as [Hc Hs].
  now rewrite (Hfg c Hc), IH.
Qed.

Lemma code_char_not_t (c : ascii) :
  code_char c = true -> negb (Ascii.eqb "t" c) = true.
Proof.
  destruct c as [[] [] [] [] [] [] [] []]; vm_compute;
    first [reflexivity | discriminate].
Qed.

(** Ahead of the sentinel nothing matches, when the output before it does
    not hold the marker. *)
Lemma contains_skip_body (d body rest : string) :
  Str.contains "terragrunt-exit-code=" body = false ->
  Str.contains ("terragrunt-exit-code=" ++ d)
    (body ++ "terragrunt-exit-code=" ++ rest)
  = Str.contains ("terragrunt-exit-code=" ++ d)
      ("terragrunt-exit-code=" ++ rest).
Proof.
  induction body as [|c body IH]; intros Hb; [reflexivity|].
  rewrite contains_cons in Hb. apply orb_false_iff in Hb as [Hs Hb].
  change (String c body ++ "terragrunt-exit-code=" ++ rest)
    with (String c (body ++ "terragrunt-exit-code=" ++ rest)).
  rewrite contains_cons, (IH Hb).
  destruct (Str.startswith ("terragrunt-exit-code=" ++ d) (String c _)) eqn:E;
    [exfalso|reflexivity].
  apply startswith_app_l in E.
  change (String c (body ++ "terragrunt-exit-code=" ++ rest))
    with (String c body ++ "terragrunt-exit-code=" ++ rest) in E.
  apply startswith_straddle in E as [E|[Hlt E]]; [congruence|].
  rewrite marker_border_free in E; [discriminate|].
  simpl in Hlt |- *. lia.
Qed.

(** At the sentinel the character after the marker decides. *)
Lemma contains_at_marker (d rest : string) :
  Str.all (fun c => negb (Ascii.eqb "t" c)) rest = true ->
  Str.contains ("terragrunt-exit-code=" ++ d) ("terragrunt-exit-code=" ++ rest)
  = Str.startswith d rest.
Proof.
  intros Hrest.
  pose proof (contains_no_head "t" ("erragrunt-exit-code=" ++ d) rest Hrest) as Hno.
  change (String "t" ("erragrunt-exit-code=" ++ d))
    with ("terragrunt-exit-code=" ++ d) in Hno.
  change ("terragrunt-exit-code=" ++ rest)
    with (String "t" ("erragrunt-exit-code=" ++ rest)).
  rewrite contains_cons.
  change (String "t" ("erragrunt-exit-code=" ++ rest))
    with ("terragrunt-exit-code=" ++ rest).
  rewrite startswith_cancel.
  assert (T : Str.contains ("terragrunt-exit-code=" ++ d)
                ("erragrunt-exit-code=" ++ rest) = false).
  { cbn [String.append].
    repeat (rewrite contains_cons;
            match goal with
            | |- context [Str.startswith ?p (String ?c ?s)] =>
                replace (Str.startswith p (String c s)) with false by reflexivity
            end; cbn [orb]).
    exact Hno. }
  rewrite T. apply orb_false_r.
Qed.

Lemma contains_sentinel (d body cs : string) :
  Str.contains "terragrunt-exit-code=" body = false ->
  Str.all code_char cs = true ->
  Str.contains ("terragrunt-exit-code=" ++ d) (body ++ sentinel cs)
  = Str.startswith d (cs ++ Str.nl).
Proof.
  intros Hb Hcs. unfold sentinel.
  rewrite (contains_skip_body d body (cs ++ Str.nl) Hb).
  apply contains_at_marker.
  rewrite all_app, (all_impl _ _ cs code_char_not_t Hcs). reflexivity.
Qed.

Lemma startswith_digit_nl (d : ascii) (cs : string) :
  code_char d = true ->
  Str.startswith (String d "") (cs ++ Str.nl) = Str.startswith (String d "") cs.
Proof.
  intros Hd. destruct cs as [|c cs]; [|reflexivity].
  cbn. destruct (Ascii.eqb d "010") eqn:E; [|reflexivity].
  apply Ascii.eqb_eq in E. subst. discriminate.
Qed.

Lemma of_uint_code_chars (u : Decimal.uint) :
  Str.all code_char (NilEmpty.string_of_uint u) = true.
Proof. induction u; simpl; auto. Qed.

(** The decimal text of an integer is made of digits and a minus sign. *)
Lemma of_int_code_chars (n : Z) : Str.all code_char (Str.of_int n) = true.
Proof.
  unfold Str.of_int. destruct (Z.to_int n) as [u|u]; cbn [NilZero.string_of_int].
  - destruct u; try reflexivity;
      apply (of_uint_code_chars (_ u)) || exact (of_uint_code_chars _).
  - cbn [Str.all]. destruct u; try reflexivity;
      exact (of_uint_code_chars _).
Qed.

End Marker.

(** ** The report command *)

Section Report.
Implicit Types (fs : filesystem) (log_file output body cs : string).

Lemma render_clean (d : option StackDiffs) :
  render "NO_CHANGES" d = Str.nl ++ "No changes detected." ++ Str.nl.
Proof. reflexivity. Qed.

Lemma render_error (d : option StackDiffs) :
  render "HAS_ERROR" d = Str.nl ++ "Errors found. See logs." ++ Str.nl.
Proof. reflexivity. Qed.

(** The command as a function of the three substring tests. *)
Lemma report_by_tests fs log_file output content :
  fs !! log_file = Some content ->
  Str.contains "terragrunt-exit-code=" content = true ->
  plan_github_pr_comment fs log_file output
  = if Str.contains "terragrunt-exit-code=0" content
    then Wrote (<[output := render "NO_CHANGES" (_summarize_unit_logs fs log_file)]> fs)
    else if Str.contains "terragrunt-exit-code=1" content
    then Wrote (<[output := render "HAS_ERROR" (_summarize_unit_logs fs log_file)]> fs)
    else if Str.contains "terragrunt-exit-code=2" content
    then Wrote (<[output := render "HAS_CHANGES" (_summarize_unit_logs fs log_file)]> fs)
    else BadParameter "Unexpected exit code marker in log file".
Proof.
  intros Hfs Hm. unfold plan_github_pr_comment. rewrite Hfs, Hm. cbn [negb].
  destruct (Str.contains "terragrunt-exit-code=0" content); [reflexivity|].
  destruct (Str.contains "terragrunt-exit-code=1" content); [reflexivity|].
  destruct (Str.contains "terragrunt-exit-code=2" content); reflexivity.
Qed.

(** A log that holds the marker only in its sentinel line is classified by
    the first character of the code text. *)
Lemma report_of_sentinel fs log_file output body cs :
  fs !! log_file = Some (body ++ sentinel cs) ->
  Str.contains "terragrunt-exit-code=" body = false ->
  Str.all code_char cs = true ->
  plan_github_pr_comment fs log_file output
  = if Str.startswith "0" cs
    then Wrote (<[output := render "NO_CHANGES" (_summarize_unit_logs fs log_file)]> fs)
    else if Str.startswith "1" cs
    then Wrote (<[output := render "HAS_ERROR" (_summarize_unit_logs fs log_file)]> fs)
    else if Str.startswith "2" cs
    then Wrote (<[output := render "HAS_CHANGES" (_summarize_unit_logs fs log_file)]> fs)
    else BadParameter "Unexpected exit code marker in log file".
Proof.
  intros Hfs Hb Hcs.
  pose proof (contains_sentinel "" body cs Hb Hcs) as H.
  pose proof (contains_sentinel "0" body cs Hb Hcs) as H0.
  pose proof (contains_sentinel "1" body cs Hb Hcs) as H1.
  pose proof (contains_sentinel "2" body cs Hb Hcs) as H2.
  rewrite startswith_digit_nl in H0, H1, H2 by reflexivity.
  change ("terragrunt-exit-code=" ++ "") with "terragrunt-exit-code=" in H.
  change ("terragrunt-exit-code=" ++ "0") with "terragrunt-exit-code=0" in H0.
  change ("terragrunt-exit-code=" ++ "1") with "terragrunt-exit-code=1" in H1.
  change ("terragrunt-exit-code=" ++ "2") with "terragrunt-exit-code=2" in H2.
  rewrite (report_by_tests fs log_file output _ Hfs H).
  now rewrite H0, H1, H2.
Qed.

End Report.

(** C4 (as the code has it).  For a log whose output holds no exit-code
    marker and which ends with the sentinel line of the code: code 0 gives
    the clean report, a line feed, [No changes detected.] and a line feed;
    code 1 gives the error report with [Errors found. See logs.]; code 2
    gives the has-changes report; a code whose decimal text starts with none
    of 0, 1 and 2 is refused with a parameter error and no report is
    written. *)
Theorem report_three_way
    (fs : filesystem) (log_file output body : string) (code : Z) :
  fs !! log_file = Some (body ++ sentinel (Str.of_int code)) ->
  Str.contains "terragrunt-exit-code=" body = false ->
  (code = 0%Z ->
   plan_github_pr_comment fs log_file output
   = Wrote (<[output := Str.nl ++ "No changes detected." ++ Str.nl]> fs))
  /\ (code = 1%Z ->
      plan_github_pr_comment fs log_file output
      = Wrote (<[output := Str.nl ++ "Errors found. See logs." ++ Str.nl]> fs))
  /\ (code = 2%Z ->
      plan_github_pr_comment fs log_file output
      = Wrote (<[output := render "HAS_CHANGES" (_summarize_unit_logs fs log_file)]> fs))
  /\ ((forall d, In d ["0"; "1"; "2"] -> Str.startswith d (Str.of_int code) = false) ->
      plan_github_pr_comment fs log_file output
      = BadParameter "Unexpected exit code marker in log file").
Proof.
  intros Hfs Hb.
  pose proof (report_of_sentinel fs log_file output body _ Hfs Hb
                (of_int_code_chars code)) as R.
  repeat match goal with |- _ /\ _ => split end.
  - intros ->. exact R.
  - intros ->. exact R.
  - intros ->. exact R.
  - intros Hd. rewrite R.
    rewrite (Hd "0"), (Hd "1"), (Hd "2"); simpl; auto.
Qed.

Lemma report_three_way_witness :
  plan_github_pr_comment
    {[ "plan.log" := ("[unit-a] tofu: No changes." ++ Str.nl) ++ sentinel (Str.of_int 0) ]}
    "plan.log" "comment.md"
  = Wrote (<[ "comment.md" := Str.nl ++ "No changes detected." ++ Str.nl ]>
             {[ "plan.log" := ("[unit-a] tofu: No changes." ++ Str.nl)
                              ++ sentinel (Str.of_int 0) ]}).
Proof.
  exact (proj1 (report_three_way _ "plan.log" "comment.md"
                  ("[unit-a] tofu: No changes." ++ Str.nl) 0
                  (lookup_singleton_eq _ _) eq_refl) eq_refl).
Defined.

(** C4 (as the specification words it) fails for the code 3: the sentinel
    of a non-zero code other than 1 and 2 gives a parameter error, not the
    error report. *)
Lemma report_code_3_counterexample :
  plan_github_pr_comment
    {[ "plan.log" := ("[unit-a] tofu: Error: boom" ++ Str.nl) ++ sentinel (Str.of_int 3) ]}
    "plan.log" "comment.md"
  = BadParameter "Unexpected exit code marker in log file"
  /\ ~ exists fs',
         plan_github_pr_comment
           {[ "plan.log" := ("[unit-a] tofu: Error: boom" ++ Str.nl)
                            ++ sentinel (Str.of_int 3) ]}
           "plan.log" "comment.md"
         = Wrote fs'.
Proof.
  assert (E : plan_github_pr_comment
                {[ "plan.log" := ("[unit-a] tofu: Error: boom" ++ Str.nl)
                                 ++ sentinel (Str.of_int 3) ]}
                "plan.log" "comment.md"
              = BadParameter "Unexpected exit code marker in log file").
  { exact (report_of_sentinel _ "plan.log" "comment.md"
             ("[unit-a] tofu: Error: boom" ++ Str.nl) (Str.of_int 3)
             (lookup_singleton_eq _ _) eq_refl eq_refl). }
  split; [exact E|]. intros (fs' & H). rewrite E in H. discriminate.
Qed.

(** C10.  The state comes from substring tests on the whole log, for the
    marker followed by 0, then by 1, then by 2.  A log that holds the marker
    followed by 0 anywhere is clean, whatever else it holds; and a sentinel
    whose code text starts with 0, 1 or 2 and goes on is classified by that
    first digit, not refused. *)
Theorem report_substring_order
    (fs : filesystem) (log_file output content : string) :
  fs !! log_file = Some content ->
  (Str.contains "terragrunt-exit-code=0" content = true ->
   plan_github_pr_comment fs log_file output
   = Wrote (<[output := render "NO_CHANGES" (_summarize_unit_logs fs log_file)]> fs))
  /\ (Str.contains "terragrunt-exit-code=0" content = false ->
      Str.contains "terragrunt-exit-code=1" content = true ->
      plan_github_pr_comment fs log_file output
      = Wrote (<[output := render "HAS_ERROR" (_summarize_unit_logs fs log_file)]> fs))
  /\ (Str.contains "terragrunt-exit-code=0" content = false ->
      Str.contains "terragrunt-exit-code=1" content = false ->
      Str.contains "terragrunt-exit-code=2" content = true ->
      plan_github_pr_comment fs log_file output
      = Wrote (<[output := render "HAS_CHANGES" (_summarize_unit_logs fs log_file)]> fs))
  /\ (forall body cs d state,
        content = body ++ sentinel cs ->
        Str.contains "terragrunt-exit-code=" body = false ->
        Str.all code_char cs = true ->
        In (d, state) [("0", "NO_CHANGES"); ("1", "HAS_ERROR"); ("2", "HAS_CHANGES")] ->
        Str.startswith d cs = true ->
        plan_github_pr_comment fs log_file output
        = Wrote (<[output := render state (_summarize_unit_logs fs log_file)]> fs)).
Proof.
  intros Hfs.
  repeat match goal with |- _ /\ _ => split end.
  - intros H0.
    rewrite (report_by_tests fs log_file output content Hfs), H0; [reflexivity|].
    apply (contains_app_l "terragrunt-exit-code=" "0"). exact H0.
  - intros H0 H1.
    rewrite (report_by_tests fs log_file output content Hfs), H0, H1; [reflexivity|].
    apply (contains_app_l "terragrunt-exit-code=" "1"). exact H1.
  - intros H0 H1 H2.
    rewrite (report_by_tests fs log_file output content Hfs), H0, H1, H2; [reflexivity|].
    apply (contains_app_l "terragrunt-exit-code=" "2"). exact H2.
  - intros body cs d state -> Hb Hcs Hin Hd.
    rewrite (report_of_sentinel fs log_file output body cs Hfs Hb Hcs).
    destruct cs as [|c cs]; [destruct Hin as [[= <- <-]|[[= <- <-]|[[= <- <-]|[]]]];
                             discriminate|].
    destruct Hin as [[= <- <-]|[[= <- <-]|[[= <- <-]|[]]]];
      cbn [Str.startswith] in Hd |- *; rewrite andb_true_r in *;
      apply Ascii.eqb_eq in Hd; subst c; reflexivity.
Qed.

Lemma report_substring_order_witness :
  (* the marker with 0 inside ordinary output, the sentinel saying 2 *)
  plan_github_pr_comment
    {[ "plan.log" := "[unit-a] tofu: + note = terragrunt-exit-code=0" ++ Str.nl
                     ++ sentinel (Str.of_int 2) ]}
    "plan.log" "comment.md"
  = Wrote (<[ "comment.md" := Str.nl ++ "No changes detected." ++ Str.nl ]>
             {[ "plan.log" := "[unit-a] tofu: + note = terragrunt-exit-code=0" ++ Str.nl
                              ++ sentinel (Str.of_int 2) ]})
  (* a sentinel for the code 10 *)
  /\ plan_github_pr_comment
       {[ "plan.log" := "" ++ sentinel (Str.of_int 10) ]} "plan.log" "comment.md"
     = Wrote (<[ "comment.md" := Str.nl ++ "Errors found. See logs." ++ Str.nl ]>
                {[ "plan.log" := "" ++ sentinel (Str.of_int 10) ]})
  (* a sentinel line with the code text 01 *)
  /\ plan_github_pr_comment
       {[ "plan.log" := "" ++ sentinel "01" ]} "plan.log" "comment.md"
     = Wrote (<[ "comment.md" := Str.nl ++ "No changes detected." ++ Str.nl ]>
                {[ "plan.log" := "" ++ sentinel "01" ]}).
Proof.
  split; [|split].
  - exact (proj1 (report_substring_order _ "plan.log" "comment.md"
                    ("[unit-a] tofu: + note = terragrunt-exit-code=0" ++ Str.nl
                     ++ sentinel (Str.of_int 2))
                    (lookup_singleton_eq _ _)) eq_refl).
  - exact (proj2 (proj2 (proj2 (report_substring_order _ "plan.log" "comment.md"
                                  ("" ++ sentinel (Str.of_int 10))
                                  (lookup_singleton_eq _ _))))
             "" (Str.of_int 10) "1" "HAS_ERROR" eq_refl eq_refl eq_refl
             (or_intror (or_introl eq_refl)) eq_refl).
  - exact (proj2 (proj2 (proj2 (report_substring_order _ "plan.log" "comment.md"
                                  ("" ++ sentinel "01")
                                  (lookup_singleton_eq _ _))))
             "" "01" "0" "NO_CHANGES" eq_refl eq_refl eq_refl
             (or_introl eq_refl) eq_refl).
Defined.

(** ** Stream relay *)

Section Relay.
Variables (quiet : bool) (log_fh : option string).
Implicit Types (st : relay) (sched : list stream) (outp errp pipe : list string).

Lemma drain_rest_cons t ln pipe st :
  drain_rest quiet log_fh t (ln :: pipe) st
  = drain_rest quiet log_fh t pipe (drain_line quiet log_fh t ln st).
Proof. reflexivity. Qed.

Lemma drain_rest_out pipe st :
  out_lines (drain_rest quiet log_fh Out pipe st) = (out_lines st ++ pipe)%list
  /\ err_lines (drain_rest quiet log_fh Out pipe st) = err_lines st.
Proof.
  revert st. induction pipe as [|ln pipe IH]; intros st.
  - simpl. now rewrite app_nil_r.
  - rewrite drain_rest_cons.
    destruct (IH (drain_line quiet log_fh Out ln st)) as [-> ->].
    simpl. now rewrite <- app_assoc.
Qed.

Lemma drain_rest_err pipe st :
  out_lines (drain_rest quiet log_fh Err pipe st) = out_lines st
  /\ err_lines (drain_rest quiet log_fh Err pipe st) = (err_lines st ++ pipe)%list.
Proof.
  revert st. induction pipe as [|ln pipe IH]; intros st.
  - simpl. now rewrite app_nil_r.
  - rewrite drain_rest_cons.
    destruct (IH (drain_line quiet log_fh Err ln st)) as [-> ->].
    simpl. now rewrite <- app_assoc.
Qed.

(** Whatever the schedule, each collector ends up with the lines of its
    own pipe, in order. *)
Lemma drains_collect sched outp errp st :
  out_lines (drains quiet log_fh sched outp errp st) = (out_lines st ++ outp)%list
  /\ err_lines (drains quiet log_fh sched outp errp st) = (err_lines st ++ errp)%list.
Proof.
  revert outp errp st.
  induction sched as [|t sched IH]; intros outp errp st.
  - cbn [drains].
    destruct (drain_rest_err errp (drain_rest quiet log_fh Out outp st)) as [-> ->].
    destruct (drain_rest_out outp st) as [-> ->]. now split.
  - destruct t; cbn [drains].
    + destruct outp as [|ln outp].
      * rewrite app_nil_r. destruct (IH [] errp st) as [E1 E2].
        rewrite app_nil_r in E1. now split.
      * destruct (IH outp errp (drain_line quiet log_fh Out ln st)) as [-> ->].
        simpl. now rewrite <- app_assoc.
    + destruct errp as [|ln errp].
      * rewrite app_nil_r. destruct (IH outp [] st) as [E1 E2].
        rewrite app_nil_r in E2. now split.
      * destruct (IH outp errp (drain_line quiet log_fh Err ln st)) as [-> ->].
        simpl. now rewrite <- app_assoc.
Qed.

End Relay.

Section RelayLog.
Variables (quiet : bool) (path : string).
Implicit Types (st : relay) (sched : list stream) (outp errp pipe : list string).

Lemma join_app (a b : list string) :
  Str.join (a ++ b)%list = Str.join a ++ Str.join b.
Proof.
  induction a as [|x a IH]; simpl; [reflexivity|].
  now rewrite IH, append_assoc.
Qed.

Lemma lookup_append_file (text : string) (fs : filesystem) :
  append_file path text fs !! path = Some (default "" (fs !! path) ++ text).
Proof. apply lookup_insert_eq. Qed.

Lemma drain_line_log t ln st :
  files (now (drain_line quiet (Some path) t ln st)) !! path
  = Some (default "" (files (now st) !! path) ++ ln).
Proof.
  unfold drain_line. destruct t, quiet; simpl; apply lookup_append_file.
Qed.

Lemma drain_rest_log t pipe st :
  is_Some (files (now st) !! path) ->
  files (now (drain_rest quiet (Some path) t pipe st)) !! path
  = Some (default "" (files (now st) !! path) ++ Str.join pipe).
Proof.
  revert st. induction pipe as [|ln pipe IH]; intros st [old Hold].
  - simpl. rewrite Hold. simpl. now rewrite append_nil_r.
  - rewrite drain_rest_cons, IH by (rewrite drain_line_log; eauto).
    rewrite drain_line_log. simpl. now rewrite append_assoc.
Qed.

(** The log file receives the lines of both pipes, in their order of
    arrival, after what it held. *)
Lemma drains_log sched outp errp st :
  is_Some (files (now st) !! path) ->
  files (now (drains quiet (Some path) sched outp errp st)) !! path
  = Some (default "" (files (now st) !! path)
          ++ Str.join (arrival sched outp errp)).
Proof.
  revert outp errp st.
  induction sched as [|t sched IH]; intros outp errp st Hst.
  - cbn [drains arrival].
    rewrite drain_rest_log by (rewrite drain_rest_log by exact Hst; eauto).
    rewrite drain_rest_log by exact Hst.
    simpl. now rewrite join_app, append_assoc.
  - destruct t; cbn [drains arrival].
    + destruct outp as [|ln outp]; [now apply IH|].
      rewrite IH by (rewrite drain_line_log; eauto).
      rewrite drain_line_log. simpl. now rewrite append_assoc.
    + destruct errp as [|ln errp]; [now apply IH|].
      rewrite IH by (rewrite drain_line_log; eauto).
      rewrite drain_line_log. simpl. now rewrite append_assoc.
Qed.

(** The log file after a relay that was given a log file. *)
Lemma run_live_log (proc : process) sched (w : world) :
  files (snd (run_live proc sched (Some path) quiet w)) !! path
  = Some (default "" (files w !! path)
          ++ Str.join (arrival sched (out_pipe proc) (err_pipe proc))).
Proof.
  unfold run_live. cbn [snd].
  assert (T : touch path (files w) !! path = Some (default "" (files w !! path))).
  { unfold touch. destruct (files w !! path) as [old|] eqn:E; [exact E|].
    apply lookup_insert_eq. }
  rewrite drains_log; cbn [now files]; rewrite T; [reflexivity|eauto].
Qed.

End RelayLog.

(** The schedule decides the order of the lines in the log file. *)
Lemma arrival_depends_on_schedule :
  arrival [Out; Err] ["o1"; "o2"] ["e1"] = ["o1"; "e1"; "o2"]
  /\ arrival [Err] ["o1"; "o2"] ["e1"] = ["e1"; "o1"; "o2"].
Proof. split; reflexivity. Qed.


(** ** Runner *)

Section RunnerFacts.
Variable popen : list string -> process.
Variable scheduler : list string -> list stream.
Implicit Types (stack_root path : string) (w : world).

Lemma run_live_code (proc : process) sched log_file quiet w :
  code (fst (run_live proc sched log_file quiet w)) = returncode proc.
Proof. reflexivity. Qed.

Lemma drains_no_log quiet sched outp errp (st : relay) :
  files (now (drains quiet None sched outp errp st)) = files (now st).
Proof.
  assert (L : forall t ln st, files (now (drain_line quiet None t ln st)) = files (now st))
    by (intros [] ln st'; unfold drain_line; destruct quiet; reflexivity).
  assert (R : forall t pipe st, files (now (drain_rest quiet None t pipe st)) = files (now st)).
  { intros t pipe. induction pipe as [|ln pipe IH]; intros st'; [reflexivity|].
    rewrite drain_rest_cons, IH. apply L. }
  revert outp errp st. induction sched as [|t sched IH]; intros outp errp st.
  - cbn [drains]. now rewrite !R.
  - destruct t; cbn [drains].
    + destruct outp; [apply IH|]. now rewrite IH, L.
    + destruct errp; [apply IH|]. now rewrite IH, L.
Qed.

(** Without a log file, a plan run writes no file at all. *)
Lemma plan_without_log stack_root w :
  files (snd (Runner_plan popen scheduler stack_root None w)) = files w.
Proof.
  unfold Runner_plan.
  destruct (run_live (popen (plan_cmd stack_root)) _ None false w)
    as [result w2] eqn:E.
  assert (F : files w2 = files w).
  { change w2 with (snd (result, w2)). rewrite <- E.
    unfold run_live. cbn [snd]. now rewrite drains_no_log. }
  destruct (code result =? 0)%Z; [exact F|].
  destruct (code result =? 2)%Z; [exact F|].
  cbn [snd]. now destruct (stderr result).
Qed.

(** With a log file and a plan that did not return 1, the log holds the
    plan output, then the show output, then the sentinel line, once. *)
Lemma plan_log_layout stack_root path w :
  returncode (popen (plan_cmd stack_root)) <> 1%Z ->
  files (snd (Runner_plan popen scheduler stack_root (Some path) w)) !! path
  = Some (Str.join (arrival (scheduler (plan_cmd stack_root))
                      (out_pipe (popen (plan_cmd stack_root)))
                      (err_pipe (popen (plan_cmd stack_root))))
          ++ Str.join (arrival (scheduler (show_cmd stack_root))
                         (out_pipe (popen (show_cmd stack_root)))
                         (err_pipe (popen (show_cmd stack_root))))
          ++ sentinel (Str.of_int (returncode (popen (plan_cmd stack_root))))).
Proof.
  intros Hcode. unfold Runner_plan. fold (unlinked path w).
  pose proof (run_live_log false path (popen (plan_cmd stack_root))
                (scheduler (plan_cmd stack_root)) (unlinked path w)) as Hplan.
  pose proof (run_live_code (popen (plan_cmd stack_root))
                (scheduler (plan_cmd stack_root)) (Some path) false
                (unlinked path w)) as Hc.
  destruct (run_live (popen (plan_cmd stack_root)) _ (Some path) false _)
    as [result w2].
  cbn [fst snd] in Hplan, Hc. rewrite Hc.
  assert (N : (returncode (popen (plan_cmd stack_root)) =? 1)%Z = false)
    by now apply Z.eqb_neq.
  rewrite N. cbn [negb].
  pose proof (run_live_log true path (popen (show_cmd stack_root))
                (scheduler (show_cmd stack_root)) w2) as Hshow.
  destruct (run_live (popen (show_cmd stack_root)) _ (Some path) true w2)
    as [shown w'].
  cbn [snd] in Hshow. rewrite Hplan in Hshow.
  unfold unlinked in Hshow. cbn [files] in Hshow.
  rewrite lookup_delete_eq in Hshow. cbn [from_option id String.append] in Hshow.
  assert (G : forall o : plan_outcome * world,
            files (snd o)
            = _write_exit_marker path (returncode (popen (plan_cmd stack_root)))
                (files w') ->
            files (snd o) !! path = Some
              (Str.join (arrival (scheduler (plan_cmd stack_root))
                           (out_pipe (popen (plan_cmd stack_root)))
                           (err_pipe (popen (plan_cmd stack_root))))
               ++ Str.join (arrival (scheduler (show_cmd stack_root))
                              (out_pipe (popen (show_cmd stack_root)))
                              (err_pipe (popen (show_cmd stack_root))))
               ++ sentinel (Str.of_int (returncode (popen (plan_cmd stack_root)))))).
  { intros o ->. unfold _write_exit_marker.
    rewrite lookup_append_file, Hshow. cbn [from_option id].
    now rewrite append_assoc. }
  destruct (returncode (popen (plan_cmd stack_root)) =? 0)%Z; [now apply G|].
  destruct (returncode (popen (plan_cmd stack_root)) =? 2)%Z; [now apply G|].
  now apply G.
Qed.

End RunnerFacts.

(** C5 (where the code departs from it).  When a log file was requested and
    the plan returns 1, the run ends with exit code 1 in the world the plan
    relay left: the log file holds the plan output alone, and neither the
    show output nor a sentinel line is appended to it. *)
Theorem plan_failure_appends_no_sentinel
    (popen : list string -> process) (scheduler : list string -> list stream)
    (stack_root path : string) (w : world) :
  returncode (popen (plan_cmd stack_root)) = 1%Z ->
  Runner_plan popen scheduler stack_root (Some path) w
  = (Exit 1, snd (run_live (popen (plan_cmd stack_root))
                    (scheduler (plan_cmd stack_root)) (Some path) false
                    (unlinked path w)))
  /\ files (snd (Runner_plan popen scheduler stack_root (Some path) w)) !! path
     = Some (Str.join (arrival (scheduler (plan_cmd stack_root))
                         (out_pipe (popen (plan_cmd stack_root)))
                         (err_pipe (popen (plan_cmd stack_root))))).
Proof.
  intros Hcode.
  assert (E : Runner_plan popen scheduler stack_root (Some path) w
              = (Exit 1, snd (run_live (popen (plan_cmd stack_root))
                                (scheduler (plan_cmd stack_root)) (Some path) false
                                (unlinked path w)))).
  { unfold Runner_plan. fold (unlinked path w).
    pose proof (run_live_code (popen (plan_cmd stack_root))
                  (scheduler (plan_cmd stack_root)) (Some path) false
                  (unlinked path w)) as Hc.
    destruct (run_live (popen (plan_cmd stack_root)) _ (Some path) false _)
      as [result w2].
    cbn [fst snd] in Hc |- *. rewrite Hc, Hcode. reflexivity. }
  split; [exact E|].
  rewrite E. cbn [snd]. rewrite run_live_log.
  unfold unlinked. cbn [files]. now rewrite lookup_delete_eq.
Qed.

Lemma plan_failure_appends_no_sentinel_witness :
  files (snd (Runner_plan failing_plan (fun _ => []) "stack" (Some "plan.log")
                empty_world)) !! "plan.log"
  = Some ("[unit-a] tofu: Error: boom" ++ Str.nl).
Proof.
  exact (proj2 (plan_failure_appends_no_sentinel failing_plan (fun _ => [])
                  "stack" "plan.log" empty_world eq_refl)).
Defined.

(** The report command then refuses the log of the failed plan: it holds no
    marker. *)
Lemma failed_plan_log_is_refused :
  plan_github_pr_comment
    {[ "plan.log" := "[unit-a] tofu: Error: boom" ++ Str.nl ]}
    "plan.log" "comment.md"
  = BadParameter "Log file missing terragrunt-exit-code marker".
Proof.
  unfold plan_github_pr_comment. rewrite lookup_singleton_eq. reflexivity.
Qed.

(** * Further properties *)

(** ** Diff-line normalization, continued *)

Section NormalizeMore.

Lemma length_append (a b : string) :
  String.length (a ++ b) = (String.length a + String.length b)%nat.
Proof. induction a as [|x a IH]; simpl; congruence. Qed.

(** The four cases of a line that is not blank. *)
Lemma normalize_cases (ws : string) (c : ascii) (rest : string) :
  Str.all Char.isspace ws = true -> Char.isspace c = false ->
  (c = "~"%char
   /\ _normalize_diff_line (ws ++ String c rest) = String "!" (ws ++ rest))
  \/ (c = "+"%char
      /\ _normalize_diff_line (ws ++ String c rest) = String "+" (ws ++ rest))
  \/ (c = "-"%char
      /\ _normalize_diff_line (ws ++ String c rest) = String "-" (ws ++ rest))
  \/ (c <> "~"%char /\ c <> "+"%char /\ c <> "-"%char
      /\ _normalize_diff_line (ws ++ String c rest) = ws ++ String c rest).
Proof.
  intros Hws Hc. rewrite (normalize_at ws c rest Hws Hc).
  cbn [List.find fst Str.startswith].
  destruct (Ascii.eqb "~" c) eqn:E1.
  { apply Ascii.eqb_eq in E1. subst c. left. now split. }
  destruct (Ascii.eqb "+" c) eqn:E2.
  { apply Ascii.eqb_eq in E2. subst c. right. left. now split. }
  destruct (Ascii.eqb "-" c) eqn:E3.
  { apply Ascii.eqb_eq in E3. subst c. right. right. left. now split. }
  right. right. right. cbn [andb].
  apply Ascii.eqb_neq in E1, E2, E3. repeat split; congruence.
Qed.

Lemma normalize_marked (m : ascii) (s : string) :
  Char.isspace m = false -> m <> "~"%char ->
  _normalize_diff_line (String m s) = String m s.
Proof.
  intros Hm Hne.
  destruct (normalize_cases "" m s eq_refl Hm)
    as [[-> _]|[[-> E]|[[-> E]|(_ & _ & _ & E)]]]; try congruence; exact E.
Qed.

End NormalizeMore.

(** X1.  Normalization keeps the length of the line: the marker is moved,
    nothing is added or dropped. *)
Theorem normalize_diff_line_length (line : string) :
  String.length (_normalize_diff_line line) = String.length line.
Proof.
  destruct (line_shape line) as (ws & Hws & [->|(c & rest & -> & Hc)]).
  - now rewrite normalize_blank.
  - destruct (normalize_cases ws c rest Hws Hc)
      as [[_ E]|[[_ E]|[[_ E]|(_ & _ & _ & E)]]]; rewrite E; try reflexivity;
      cbn [String.length]; rewrite !length_append; cbn [String.length]; lia.
Qed.

(** X2.  Normalizing twice is normalizing once. *)
Theorem normalize_diff_line_idempotent (line : string) :
  _normalize_diff_line (_normalize_diff_line line) = _normalize_diff_line line.
Proof.
  destruct (line_shape line) as (ws & Hws & [->|(c & rest & -> & Hc)]).
  - now rewrite !(normalize_blank ws Hws).
  - destruct (normalize_cases ws c rest Hws Hc)
      as [[_ E]|[[_ E]|[[_ E]|(_ & _ & _ & E)]]]; rewrite E.
    + apply normalize_marked; [reflexivity|discriminate].
    + apply normalize_marked; [reflexivity|discriminate].
    + apply normalize_marked; [reflexivity|discriminate].
    + exact E.
Qed.

(** X3.  After normalization no line starts, behind its leading white
    space, with [~]. *)
Theorem normalize_diff_line_no_tilde (line : string) :
  Str.startswith "~" (Str.lstrip (_normalize_diff_line line)) = false.
Proof.
  destruct (line_shape line) as (ws & Hws & [->|(c & rest & -> & Hc)]).
  - now rewrite normalize_blank, lstrip_all_spaces.
  - destruct (normalize_cases ws c rest Hws Hc)
      as [[_ E]|[[_ E]|[[_ E]|(H1 & _ & _ & E)]]]; rewrite E; try reflexivity.
    rewrite lstrip_spaces by exact Hws. cbn [Str.lstrip]. rewrite Hc.
    cbn [Str.startswith]. destruct (Ascii.eqb "~" c) eqn:E1; [|reflexivity].
    apply Ascii.eqb_eq in E1. congruence.
Qed.

(** ** What [TOFU_RE] matches *)

Section Regex.
Implicit Types (k : list Re.op) (s : string) (ms r : Re.marks).

Lemma run_literal a k s ms r :
  Re.run (Re.Literal a :: k) s ms = Some r ->
  exists s', s = String a s' /\ Re.run k s' ms = Some r.
Proof.
  cbn [Re.run]. destruct s as [|c s']; [discriminate|].
  destruct (Ascii.eqb a c) eqn:E; [|discriminate].
  apply Ascii.eqb_eq in E. subst c. intros H. now exists s'.
Qed.

Lemma run_in p k s ms r :
  Re.run (Re.In p :: k) s ms = Some r ->
  exists c s', s = String c s' /\ p c = true /\ Re.run k s' ms = Some r.
Proof.
  cbn [Re.run]. destruct s as [|c s']; [discriminate|].
  destruct (p c) eqn:E; [|discriminate].
  intros H. now exists c, s'.
Qed.

(** A greedy repetition takes some characters of its class, at least the
    lower bound, and the rest of the pattern matches what follows. *)
Lemma run_repeat lo p k s ms r :
  Re.run (Re.MaxRepeat lo p :: k) s ms = Some r ->
  exists pre s',
    s = pre ++ s' /\ Str.all p pre = true
    /\ (lo <= String.length pre)%nat /\ Re.run k s' ms = Some r.
Proof.
  cbn [Re.run].
  assert (G : forall n : nat,
    (fix rep (n : nat) (s : string) {struct s} : option Re.marks :=
       let stop := if (lo <=? n)%nat then Re.run k s ms else None in
       match s with
       | String c s' =>
           if p c
           then match rep (S n) s' with
                | Some r => Some r
                | None => stop
                end
           else stop
       | "" => stop
       end) n s = Some r ->
    exists pre s',
      s = pre ++ s' /\ Str.all p pre = true
      /\ (lo <= n + String.length pre)%nat /\ Re.run k s' ms = Some r).
  { induction s as [|c s IH]; intros n H.
    - cbn in H. destruct (lo <=? n)%nat eqn:L; [|discriminate].
      apply Nat.leb_le in L. exists "", "". repeat split; [simpl; lia|exact H].
    - cbn beta iota zeta delta -[Nat.leb Re.run] in H. fold Re.run in H.
      assert (Stop : (if (lo <=? n)%nat then Re.run k (String c s) ms else None) = Some r ->
                     exists pre s', String c s = pre ++ s' /\ Str.all p pre = true
                       /\ (lo <= n + String.length pre)%nat /\ Re.run k s' ms = Some r).
      { intros Hs. destruct (lo <=? n)%nat eqn:L; [|discriminate].
        apply Nat.leb_le in L. exists "", (String c s).
        repeat split; [simpl; lia|exact Hs]. }
      destruct (p c) eqn:Pc; [|now apply Stop].
      match type of H with
      | match ?X with _ => _ end = _ => destruct X as [r'|] eqn:R
      end; [|now apply Stop].
      injection H as ->.
      destruct (IH (S n) R) as (pre & s' & -> & Hpre & Hlen & Hk).
      exists (String c pre), s'. repeat split.
      + simpl. now rewrite Pc.
      + simpl. lia.
      + exact Hk. }
  intros H. destruct (G 0%nat H) as (pre & s' & E & Hp & Hl & Hk).
  exists pre, s'. repeat split; auto.
Qed.

Local Abbreviation accepts k s := (forall ms : Re.marks, is_Some (Re.run k s ms)).

Lemma accepts_literal a k s : accepts k s -> accepts (Re.Literal a :: k) (String a s).
Proof. intros H ms. cbn [Re.run]. rewrite Ascii.eqb_refl. apply H. Qed.

Lemma accepts_in p c k s :
  p c = true -> accepts k s -> accepts (Re.In p :: k) (String c s).
Proof. intros Hc H ms. cbn [Re.run]. rewrite Hc. apply H. Qed.

Lemma accepts_mark n k s : accepts k s -> accepts (Re.Mark n :: k) s.
Proof. intros H ms. cbn [Re.run]. apply H. Qed.

(** The repetition gives back characters until the rest of the pattern
    matches: a split that works is found, or a longer one. *)
Lemma accepts_repeat lo p k pre s :
  Str.all p pre = true -> (lo <= String.length pre)%nat ->
  accepts k s -> accepts (Re.MaxRepeat lo p :: k) (pre ++ s).
Proof.
  intros Hpre Hlo Hk ms. cbn [Re.run].
  assert (G : forall n : nat, (lo <= n + String.length pre)%nat ->
    is_Some
      ((fix rep (n : nat) (s : string) {struct s} : option Re.marks :=
          let stop := if (lo <=? n)%nat then Re.run k s ms else None in
          match s with
          | String c s' =>
              if p c
              then match rep (S n) s' with
                   | Some r => Some r
                   | None => stop
                   end
              else stop
          | "" => stop
          end) n (pre ++ s))).
  { clear Hlo. induction pre as [|c pre IH]; intros n Hn.
    - assert (L : (lo <=? n)%nat = true) by (apply Nat.leb_le; simpl in Hn; lia).
      cbn [String.append]. destruct s as [|c s'].
      + rewrite L. apply Hk.
      + cbn beta iota zeta. rewrite L. destruct (p c); [|apply Hk].
        match goal with
        | |- is_Some (match ?X with _ => _ end) => destruct X
        end; [eauto|apply Hk].
    - cbn [Str.all] in Hpre. apply andb_true_iff in Hpre as [Pc Hpre].
      cbn [String.append]. cbn beta iota zeta. rewrite Pc.
      assert (Hn' : (lo <= S n + String.length pre)%nat) by (simpl in Hn; lia).
      destruct (IH Hpre (S n) Hn') as [r' Hr'].
      match goal with
      | |- is_Some (match ?X with _ => _ end) => destruct X eqn:R
      end; [eauto|discriminate Hr']. }
  apply G. lia.
Qed.

(** The last repetition of the pattern takes all it can. *)
Lemma run_last p n s ms r :
  Re.run [Re.MaxRepeat 0 p; Re.Mark n] s ms = Some r ->
  exists msg rest,
    s = msg ++ rest /\ Str.all p msg = true
    /\ (rest = "" \/ exists c rest', rest = String c rest' /\ p c = false)
    /\ r = (n, rest) :: ms.
Proof.
  assert (G : forall (s : string) (m : nat),
    (fix rep (m : nat) (s : string) {struct s} : option Re.marks :=
       let stop := if (0 <=? m)%nat then Re.run [Re.Mark n] s ms else None in
       match s with
       | String c s' =>
           if p c
           then match rep (S m) s' with
                | Some r => Some r
                | None => stop
                end
           else stop
       | "" => stop
       end) m s = Some r ->
    exists msg rest,
      s = msg ++ rest /\ Str.all p msg = true
      /\ (rest = "" \/ exists c rest', rest = String c rest' /\ p c = false)
      /\ r = (n, rest) :: ms).
  { clear s. induction s as [|c s IH]; intros m H.
    - cbn in H. injection H as <-. exists "", "". repeat split; auto.
    - cbn beta iota zeta delta -[Re.run] in H. destruct (p c) eqn:Pc.
      + match type of H with
        | match ?X with _ => _ end = _ => destruct X as [r'|] eqn:R
        end.
        * injection H as ->.
          destruct (IH (S m) R) as (msg & rest & -> & Hmsg & Hrest & ->).
          exists (String c msg), rest. repeat split; auto.
          simpl. now rewrite Pc.
        * exfalso. clear H IH. revert R. generalize (S m).
          induction s as [|d s IHs]; intros q R.
          -- cbn in R. discriminate.
          -- cbn beta iota zeta delta -[Re.run] in R. destruct (p d).
             ++ match type of R with
                | match ?X with _ => _ end = _ => destruct X eqn:R'
                end; [discriminate|]. cbn in R. discriminate.
             ++ cbn in R. discriminate.
      + cbn in H. injection H as <-. exists "", (String c s).
        repeat split; auto. right. now exists c, s. }
  intros H. exact (G s 0%nat H).
Qed.

Lemma take_app_exact (a b : string) :
  Str.take (String.length (a ++ b) - String.length b) (a ++ b) = a.
Proof.
  rewrite length_append.
  replace (String.length a + String.length b - String.length b)%nat
    with (String.length a) by lia.
  induction a as [|c a IH]; simpl.
  - now destruct b.
  - now rewrite IH.
Qed.

Lemma length_pos_iff (s : string) : (1 <= String.length s)%nat <-> s <> "".
Proof. destruct s; simpl; split; intros H; try lia; congruence. Qed.

Lemma run_mark n k s ms : Re.run (Re.Mark n :: k) s ms = Re.run k s ((n, s) :: ms).
Proof. reflexivity. Qed.

Lemma tofu_code :
  Re.code TOFU_RE
  = [Re.MaxRepeat 0 dot; Re.Literal "["; Re.Mark 0;
     Re.MaxRepeat 1 not_rbracket; Re.Mark 1; Re.Literal "]";
     Re.MaxRepeat 1 Char.isspace;
     Re.Literal "t"; Re.Literal "o"; Re.Literal "f"; Re.Literal "u"; Re.Literal ":";
     Re.In Char.isspace; Re.Mark 2; Re.MaxRepeat 0 dot; Re.Mark 3]%list.
Proof. reflexivity. Qed.

End Regex.

(** X4.  A line that [TOFU_RE] matches reads: a prefix without line feed,
    [[], a module name that is not empty and holds no []], []], white
    space, [tofu:], one white space character, the message, which holds no
    line feed and runs to the end of the line or to its line feed.  The
    groups [module] and [message] are that name and that message. *)
Theorem tofu_match_groups (ln : string) (m : Re.Match) :
  Re.match_ TOFU_RE ln = Some m ->
  exists pre module ws sp message rest,
    ln = pre ++ "[" ++ module ++ "]" ++ ws ++ "tofu:" ++ String sp (message ++ rest)
    /\ Str.all dot pre = true
    /\ module <> "" /\ Str.all not_rbracket module = true
    /\ ws <> "" /\ Str.all Char.isspace ws = true
    /\ Char.isspace sp = true
    /\ Str.all dot message = true
    /\ (rest = "" \/ exists rest', rest = String Char.LF rest')
    /\ Re.group TOFU_RE m "module" = module
    /\ Re.group TOFU_RE m "message" = message.
Proof.
  unfold Re.match_. rewrite tofu_code.
  destruct (Re.run _ ln []) as [r|] eqn:H; [|discriminate].
  intros [= <-].
  apply run_repeat in H as (pre & s1 & -> & Hpre & _ & H).
  apply run_literal in H as (s2 & -> & H). rewrite run_mark in H.
  apply run_repeat in H as (module & s3 & -> & Hmod & Lmod & H).
  rewrite run_mark in H.
  apply run_literal in H as (s4 & -> & H).
  apply run_repeat in H as (ws & s5 & -> & Hws & Lws & H).
  apply run_literal in H as (s6 & -> & H).
  apply run_literal in H as (s7 & -> & H).
  apply run_literal in H as (s8 & -> & H).
  apply run_literal in H as (s9 & -> & H).
  apply run_literal in H as (s10 & -> & H).
  apply run_in in H as (sp & s11 & -> & Hsp & H). rewrite run_mark in H.
  apply run_last in H as (message & rest & -> & Hmsg & Hrest & ->).
  exists pre, module, ws, sp, message, rest.
  repeat match goal with |- _ /\ _ => split end; auto.
  - now apply length_pos_iff.
  - now apply length_pos_iff.
  - destruct Hrest as [->|(c & rest' & -> & Hc)]; [now left|right].
    exists rest'. f_equal. unfold dot in Hc. apply negb_false_iff in Hc.
    now apply Ascii.eqb_eq in Hc.
  - unfold Re.group. cbn [Re.groupindex TOFU_RE Dict.get String.eqb Ascii.eqb
                           Bool.eqb Re.spans Re.mark Nat.eqb Nat.mul Nat.sub Nat.add].
    apply (take_app_exact module (String "]" _)).
  - unfold Re.group. cbn [Re.groupindex TOFU_RE Dict.get String.eqb Ascii.eqb
                           Bool.eqb Re.spans Re.mark Nat.eqb Nat.mul Nat.sub Nat.add].
    apply take_app_exact.
Qed.

Lemma tofu_match_groups_witness :
  exists m,
    Re.match_ TOFU_RE ("12:00 [.terragrunt-stack/db]  tofu: ~ x" ++ Str.nl) = Some m
    /\ exists pre module ws sp message rest,
         "12:00 [.terragrunt-stack/db]  tofu: ~ x" ++ Str.nl
         = pre ++ "[" ++ module ++ "]" ++ ws ++ "tofu:" ++ String sp (message ++ rest)
         /\ Str.all dot pre = true
         /\ module <> "" /\ Str.all not_rbracket module = true
         /\ ws <> "" /\ Str.all Char.isspace ws = true
         /\ Char.isspace sp = true
         /\ Str.all dot message = true
         /\ (rest = "" \/ exists rest', rest = String Char.LF rest')
         /\ Re.group TOFU_RE m "module" = module
         /\ Re.group TOFU_RE m "message" = message.
Proof.
  eexists. split; [vm_compute; reflexivity|].
  apply tofu_match_groups. vm_compute. reflexivity.
Defined.

(** X5.  Every line of that shape is matched: none is skipped. *)
Theorem tofu_shape_is_matched (ln : string) :
  tofu_shape ln -> is_Some (Re.match_ TOFU_RE ln).
Proof.
  intros (pre & module & ws & sp & rest & -> & Hpre & Hmod & Amod & Hws & Aws & Hsp).
  unfold Re.match_. rewrite tofu_code.
  assert (A : is_Some (Re.run
            [Re.MaxRepeat 0 dot; Re.Literal "["; Re.Mark 0;
             Re.MaxRepeat 1 not_rbracket; Re.Mark 1; Re.Literal "]";
             Re.MaxRepeat 1 Char.isspace;
             Re.Literal "t"; Re.Literal "o"; Re.Literal "f"; Re.Literal "u";
             Re.Literal ":"; Re.In Char.isspace; Re.Mark 2; Re.MaxRepeat 0 dot;
             Re.Mark 3]
            (pre ++ "[" ++ module ++ "]" ++ ws ++ "tofu:" ++ String sp rest) [])).
  { revert Hpre. generalize (@nil (nat * string)). intros ms0 Hpre. revert ms0.
    apply accepts_repeat; [exact Hpre|lia|].
    apply (accepts_literal "["), accepts_mark.
    apply accepts_repeat; [exact Amod|now apply length_pos_iff|].
    apply accepts_mark, (accepts_literal "]").
    apply accepts_repeat; [exact Aws|now apply length_pos_iff|].
    apply (accepts_literal "t"), (accepts_literal "o"), (accepts_literal "f"),
      (accepts_literal "u"), (accepts_literal ":").
    apply accepts_in; [exact Hsp|]. apply accepts_mark.
    apply (accepts_repeat 0 dot [Re.Mark 3] "" rest eq_refl (le_n 0)).
    intros ms. cbn. eauto. }
  destruct A as [r ->]. eauto.
Qed.

Lemma tofu_shape_is_matched_witness :
  is_Some (Re.match_ TOFU_RE "[unit-a]  tofu: No changes.").
Proof.
  apply tofu_shape_is_matched.
  exists "", "unit-a", "  "%string, " "%char, "No changes.".
  repeat split; discriminate.
Defined.

(** ** Grouping, continued *)

Section DictMore.
Context {V : Type}.
Implicit Types (d : list (string * V)) (k : string) (v : V).

Lemma get_set_eq k v d : Dict.get k (Dict.set k v d) = Some v.
Proof.
  induction d as [|[k0 v0] d IH]; simpl.
  - now rewrite String.eqb_refl.
  - destruct (String.eqb k0 k) eqn:E; simpl; now rewrite E.
Qed.

Lemma get_set_ne k k' v d :
  k' <> k -> Dict.get k' (Dict.set k v d) = Dict.get k' d.
Proof.
  intros Hne. induction d as [|[k0 v0] d IH]; simpl.
  - destruct (String.eqb k k') eqn:E; [|reflexivity].
    apply String.eqb_eq in E. congruence.
  - destruct (String.eqb k0 k) eqn:E; simpl.
    + apply String.eqb_eq in E. subst k0.
      destruct (String.eqb k k') eqn:E'; [|reflexivity].
      apply String.eqb_eq in E'. congruence.
    + now rewrite IH.
Qed.

Lemma existsb_eqb_In (x : string) (l : list string) :
  existsb (String.eqb x) l = true <-> In x l.
Proof.
  rewrite existsb_exists. split.
  - intros (y & Hy & E). apply String.eqb_eq in E. now subst.
  - intros H. exists x. split; [exact H|apply String.eqb_refl].
Qed.

Lemma keys_set_eq k v d :
  Dict.keys (Dict.set k v d)
  = if existsb (String.eqb k) (Dict.keys d) then Dict.keys d
    else (Dict.keys d ++ [k])%list.
Proof.
  induction d as [|[k0 v0] d IH]; [reflexivity|].
  cbn [Dict.set]. destruct (String.eqb k0 k) eqn:E.
  - unfold Dict.keys. cbn [List.map fst existsb].
    now rewrite (String.eqb_sym k k0), E.
  - unfold Dict.keys in *. cbn [List.map fst existsb].
    rewrite (String.eqb_sym k k0), E, IH. cbn [orb].
    now destruct (existsb (String.eqb k) (List.map fst d)).
Qed.

(** Setting a key that is not there appends it. *)
Lemma set_fresh k v d :
  ~ In k (Dict.keys d) -> Dict.set k v d = (d ++ [(k, v)])%list.
Proof.
  induction d as [|[k0 v0] d IH]; simpl; intros H; [reflexivity|].
  destruct (String.eqb k0 k) eqn:E.
  - apply String.eqb_eq in E. subst. exfalso. apply H. now left.
  - rewrite IH; [reflexivity|]. intros Hin. apply H. now right.
Qed.

End DictMore.

Section CollectMore.
Implicit Types (entries : list (string * list string)) (ls : list string).

Lemma collect_line_parse entries ln :
  collect_line entries ln
  = match parse_line ln with
    | Some (u, msg) => append_entry u msg entries
    | None => entries
    end.
Proof.
  unfold collect_line, parse_line. now destruct (Re.match_ TOFU_RE ln).
Qed.

Lemma parsed_lines_cons ln ls :
  parsed_lines (ln :: ls)
  = (match parse_line ln with Some p => [p] | None => [] end ++ parsed_lines ls)%list.
Proof. reflexivity. Qed.

Lemma append_entry_messages u k msg entries :
  default [] (Dict.get u (append_entry k msg entries))
  = (default [] (Dict.get u entries) ++ messages_of u [(k, msg)])%list.
Proof.
  unfold append_entry, messages_of. cbn [List.filter fst List.map snd].
  destruct (String.eqb k u) eqn:E.
  - apply String.eqb_eq in E. subst k. now rewrite get_set_eq.
  - apply String.eqb_neq in E. rewrite get_set_ne by congruence.
    simpl. now rewrite app_nil_r.
Qed.

Lemma messages_of_app u (a b : list (string * string)) :
  messages_of u (a ++ b) = (messages_of u a ++ messages_of u b)%list.
Proof. unfold messages_of. now rewrite List.filter_app, List.map_app. Qed.

(** The messages filed under a unit are those parsed for it, in order,
    after those it had. *)
Lemma collect_messages ls entries u :
  default [] (Dict.get u (fold_left collect_line ls entries))
  = (default [] (Dict.get u entries) ++ messages_of u (parsed_lines ls))%list.
Proof.
  revert entries. induction ls as [|ln ls IH]; intros entries.
  - simpl. now rewrite app_nil_r.
  - cbn [fold_left]. rewrite IH, parsed_lines_cons, messages_of_app, app_assoc.
    f_equal. rewrite collect_line_parse.
    destruct (parse_line ln) as [[k msg]|].
    + apply append_entry_messages.
    + simpl. now rewrite app_nil_r.
Qed.

Lemma append_entry_nonempty k msg entries :
  (forall u l, Dict.get u entries = Some l -> l <> []) ->
  forall u l, Dict.get u (append_entry k msg entries) = Some l -> l <> [].
Proof.
  intros H u l. unfold append_entry.
  destruct (String.eqb k u) eqn:E.
  - apply String.eqb_eq in E. subst k. rewrite get_set_eq.
    intros [= <-]. now destruct (default [] (Dict.get u entries)).
  - apply String.eqb_neq in E. rewrite get_set_ne by congruence. apply H.
Qed.

Lemma collect_nonempty ls entries :
  (forall u l, Dict.get u entries = Some l -> l <> []) ->
  forall u l, Dict.get u (fold_left collect_line ls entries) = Some l -> l <> [].
Proof.
  revert entries. induction ls as [|ln ls IH]; intros entries H; [exact H|].
  cbn [fold_left]. apply IH. rewrite collect_line_parse.
  destruct (parse_line ln) as [[k msg]|]; [|exact H].
  now apply append_entry_nonempty.
Qed.

Lemma append_entry_total k msg entries :
  total_messages (append_entry k msg entries) = S (total_messages entries).
Proof.
  unfold append_entry, total_messages.
  induction entries as [|[k0 v0] entries IH]; [reflexivity|].
  cbn [Dict.get Dict.set]. destruct (String.eqb k0 k) eqn:E.
  - cbn [List.map snd list_sum fold_right default from_option id].
    rewrite List.length_app. simpl. lia.
  - cbn [List.map snd list_sum fold_right]. unfold list_sum in IH.
    rewrite IH. lia.
Qed.

Lemma collect_total ls entries :
  total_messages (fold_left collect_line ls entries)
  = (total_messages entries + List.length (parsed_lines ls))%nat.
Proof.
  revert entries. induction ls as [|ln ls IH]; intros entries.
  - simpl. lia.
  - cbn [fold_left]. rewrite IH, parsed_lines_cons, List.length_app, collect_line_parse.
    destruct (parse_line ln) as [[k msg]|].
    + rewrite append_entry_total. simpl. lia.
    + simpl. lia.
Qed.

Lemma first_seen_ext (s1 s2 l : list string) :
  (forall x, In x s1 <-> In x s2) -> first_seen s1 l = first_seen s2 l.
Proof.
  revert s1 s2. induction l as [|y l IH]; intros s1 s2 H; [reflexivity|].
  cbn [first_seen].
  assert (E : existsb (String.eqb y) s1 = existsb (String.eqb y) s2).
  { apply eq_true_iff_eq. rewrite !existsb_eqb_In. apply H. }
  rewrite E. destruct (existsb (String.eqb y) s2).
  - now apply IH.
  - f_equal. apply IH. intros x. simpl. rewrite (H x). reflexivity.
Qed.

Lemma collect_key_order ls entries :
  Dict.keys (fold_left collect_line ls entries)
  = (Dict.keys entries
     ++ first_seen (Dict.keys entries) (List.map fst (parsed_lines ls)))%list.
Proof.
  revert entries. induction ls as [|ln ls IH]; intros entries.
  - simpl. now rewrite app_nil_r.
  - cbn [fold_left]. rewrite IH, parsed_lines_cons, List.map_app, collect_line_parse.
    destruct (parse_line ln) as [[k msg]|]; [|reflexivity].
    cbn [List.map fst app first_seen]. unfold append_entry.
    rewrite keys_set_eq.
    destruct (existsb (String.eqb k) (Dict.keys entries)) eqn:E; [reflexivity|].
    rewrite <- app_assoc. cbn [app]. do 2 f_equal.
    apply first_seen_ext. intros x. rewrite in_app_iff. simpl. tauto.
Qed.

End CollectMore.

(** X6.  The grouping files under each unit exactly the messages of its
    matching lines, in the order of the file; a unit without a matching
    line is not a key, so no key has an empty list. *)
Theorem grouped_messages_in_file_order (text u : string) :
  Dict.get u (_collect_unit_entries text)
  = match messages_of u (parsed text) with
    | [] => None
    | l => Some l
    end.
Proof.
  unfold _collect_unit_entries, parsed.
  pose proof (collect_messages (Str.lines text) [] u) as M.
  pose proof (collect_nonempty (Str.lines text) []
                ltac:(intros ? ? [=]) u) as N.
  cbn [Dict.get default from_option id app] in M.
  destruct (Dict.get u (fold_left collect_line (Str.lines text) [])) as [l|].
  - cbn [default from_option id] in M. rewrite <- M.
    specialize (N l eq_refl). now destruct l.
  - cbn [default from_option id] in M. now rewrite <- M.
Qed.

(** X7.  The grouping holds as many messages as the log has matching lines:
    none is lost and none is counted twice. *)
Theorem grouped_message_count (text : string) :
  total_messages (_collect_unit_entries text) = List.length (parsed text).
Proof.
  unfold _collect_unit_entries, parsed.
  rewrite collect_total. reflexivity.
Qed.

(** X8.  The units of the grouping come in the order in which the log first
    names them. *)
Theorem grouped_units_in_first_seen_order (text : string) :
  Dict.keys (_collect_unit_entries text)
  = first_seen [] (List.map fst (parsed text)).
Proof.
  unfold _collect_unit_entries, parsed.
  rewrite collect_key_order. reflexivity.
Qed.

(** ** Classification, continued *)

Section SummarizeMore.
Implicit Types (g : list (string * list string)) (acc : StackDiffs).

Lemma summarize_stable_list g acc :
  stable (fold_left summarize_unit g acc)
  = (stable acc ++ List.map fst (List.filter is_stable g))%list.
Proof.
  revert acc. induction g as [|[k ms] g IH]; intros acc.
  - simpl. now rewrite app_nil_r.
  - cbn [fold_left List.filter]. rewrite IH.
    change (is_stable (k, ms)) with (existsb no_changes ms).
    cbn [summarize_unit]. destruct (existsb no_changes ms).
    + cbn [stable List.map fst]. now rewrite <- app_assoc.
    + reflexivity.
Qed.

Lemma summarize_diffs_list g acc :
  List.NoDup (Dict.keys g) ->
  (forall k, In k (Dict.keys g) -> ~ In k (Dict.keys (diffs acc))) ->
  diffs (fold_left summarize_unit g acc)
  = (diffs acc
     ++ List.map normalized (List.filter (fun it => negb (is_stable it)) g))%list.
Proof.
  revert acc. induction g as [|[k ms] g IH]; intros acc Hnd Hfresh.
  - simpl. now rewrite app_nil_r.
  - cbn [Dict.keys List.map fst] in Hnd. apply NoDup_cons_iff in Hnd as [Hk Hnd].
    cbn [fold_left List.filter].
    change (is_stable (k, ms)) with (existsb no_changes ms).
    cbn [summarize_unit]. destruct (existsb no_changes ms) eqn:E.
    + cbn [negb]. rewrite IH; [reflexivity|exact Hnd|].
      intros k' Hk'. cbn [diffs]. apply Hfresh. now right.
    + cbn [negb]. rewrite IH; [|exact Hnd|].
      * cbn [diffs]. rewrite set_fresh by (apply Hfresh; now left).
        rewrite <- app_assoc. reflexivity.
      * intros k' Hk'. cbn [diffs].
        rewrite set_fresh by (apply Hfresh; now left).
        unfold Dict.keys. rewrite List.map_app, in_app_iff. simpl.
        intros [Hin|[<-|[]]].
        -- revert Hin. apply Hfresh. now right.
        -- now apply Hk.
Qed.

End SummarizeMore.

(** X9.  The summary is the grouping split in two, each half in the order
    of the grouping: the stable list holds the units with a no-changes
    message, and the diffs hold, for every other unit, its messages
    normalized one by one. *)
Theorem summary_is_ordered_partition (fs : filesystem) (log_file text : string) :
  fs !! log_file = Some text ->
  _summarize_unit_logs fs log_file
  = Some {| stable := List.map fst (List.filter is_stable (_collect_unit_entries text));
            diffs := List.map normalized
                       (List.filter (fun it => negb (is_stable it))
                          (_collect_unit_entries text)) |}.
Proof.
  intros Hfs. rewrite (summarize_found fs log_file text Hfs). f_equal.
  pose proof (summarize_stable_list (_collect_unit_entries text)
                {| stable := []; diffs := [] |}) as S.
  pose proof (summarize_diffs_list (_collect_unit_entries text)
                {| stable := []; diffs := [] |} (grouped_NoDup text)
                ltac:(intros ? ? [])) as D.
  cbn [stable diffs app] in S, D.
  destruct (fold_left summarize_unit _ _) as [st df].
  cbn [stable diffs] in S, D. now subst.
Qed.

Lemma summary_is_ordered_partition_witness :
  _summarize_unit_logs
    {[ "plan.log" := "[b] tofu: ~ x" ++ Str.nl ++ "[a] tofu: No changes." ++ Str.nl
                     ++ "[b] tofu:   + y" ++ Str.nl ]} "plan.log"
  = Some {| stable := ["a"]; diffs := [("b", ["! x"; "+   y"])] |}.
Proof.
  exact (summary_is_ordered_partition _ "plan.log"
           ("[b] tofu: ~ x" ++ Str.nl ++ "[a] tofu: No changes." ++ Str.nl
            ++ "[b] tofu:   + y" ++ Str.nl)
           (lookup_singleton_eq _ _)).
Defined.

(** X10.  No line of the diffs starts, behind its leading white space, with
    [~]: every such marker has become [!]. *)
Theorem summary_diffs_have_no_tilde
    (fs : filesystem) (log_file : string) (sd : StackDiffs)
    (u : string) (lines : list string) (ln : string) :
  _summarize_unit_logs fs log_file = Some sd ->
  In (u, lines) (diffs sd) -> In ln lines ->
  Str.startswith "~" (Str.lstrip ln) = false.
Proof.
  unfold _summarize_unit_logs. destruct (fs !! log_file) as [text|]; [|discriminate].
  intros [= <-] Hin Hln.
  rewrite summarize_diffs_list in Hin;
    [|apply grouped_NoDup|intros ? ? []].
  cbn [diffs app] in Hin. apply in_map_iff in Hin as ([k ms] & [= <- <-] & _).
  apply in_map_iff in Hln as (msg & <- & _).
  destruct (line_shape msg) as (ws & Hws & [->|(c & rest & -> & Hc)]).
  - now rewrite normalize_blank, lstrip_all_spaces.
  - destruct (normalize_cases ws c rest Hws Hc)
      as [[_ E]|[[_ E]|[[_ E]|(H1 & _ & _ & E)]]]; rewrite E; try reflexivity.
    rewrite lstrip_spaces by exact Hws. cbn [Str.lstrip]. rewrite Hc.
    cbn [Str.startswith]. destruct (Ascii.eqb "~" c) eqn:E1; [|reflexivity].
    apply Ascii.eqb_eq in E1. congruence.
Qed.

Lemma summary_diffs_have_no_tilde_witness :
  Str.startswith "~" (Str.lstrip "!   x") = false.
Proof.
  apply (summary_diffs_have_no_tilde
           {[ "plan.log" := "[b] tofu:   ~ x" ++ Str.nl ]} "plan.log"
           {| stable := []; diffs := [("b", ["!   x"])] |} "b" ["!   x"] "!   x").
  - rewrite (summarize_found _ "plan.log" _ (lookup_singleton_eq _ _)).
    vm_compute. reflexivity.
  - now left.
  - now left.
Defined.

(** ** Stream relay, continued *)

Section Interleaving.
Context {A : Type}.

Lemma interleaving_app (a b : list A) : interleaving a b (a ++ b)%list.
Proof.
  induction a as [|x a IH]; simpl.
  - induction b as [|y b IHb]; constructor. exact IHb.
  - now constructor.
Qed.

End Interleaving.

Section RelayMore.
Implicit Types (st : relay) (sched : list stream) (outp errp pipe : list string).

Lemma arrival_interleaving sched outp errp :
  interleaving outp errp (arrival sched outp errp).
Proof.
  revert outp errp. induction sched as [|t sched IH]; intros outp errp.
  - apply interleaving_app.
  - destruct t; cbn [arrival].
    + destruct outp; [apply IH|]. constructor. apply IH.
    + destruct errp; [apply IH|]. constructor. apply IH.
Qed.

Lemma interleaving_arrival outp errp (l : list string) :
  interleaving outp errp l -> exists sched, arrival sched outp errp = l.
Proof.
  induction 1 as [|x a b l _ [sched IH]|x a b l _ [sched IH]].
  - now exists [].
  - exists (Out :: sched). cbn [arrival]. now rewrite IH.
  - exists (Err :: sched). cbn [arrival]. now rewrite IH.
Qed.

Lemma lookup_append_file_ne (path p' text : string) (fs : filesystem) :
  p' <> path -> append_file path text fs !! p' = fs !! p'.
Proof. intros H. unfold append_file. now rewrite lookup_insert_ne. Qed.

Lemma drain_line_other quiet path t ln st p' :
  p' <> path ->
  files (now (drain_line quiet (Some path) t ln st)) !! p' = files (now st) !! p'.
Proof.
  intros H. unfold drain_line.
  destruct t, quiet; cbn [now files]; now apply lookup_append_file_ne.
Qed.

Lemma drain_rest_other quiet path t pipe st p' :
  p' <> path ->
  files (now (drain_rest quiet (Some path) t pipe st)) !! p' = files (now st) !! p'.
Proof.
  intros H. revert st. induction pipe as [|ln pipe IH]; intros st; [reflexivity|].
  rewrite drain_rest_cons, IH. now apply drain_line_other.
Qed.

Lemma drains_other quiet path sched outp errp st p' :
  p' <> path ->
  files (now (drains quiet (Some path) sched outp errp st)) !! p' = files (now st) !! p'.
Proof.
  intros H. revert outp errp st.
  induction sched as [|t sched IH]; intros outp errp st.
  - cbn [drains]. now rewrite !drain_rest_other.
  - destruct t; cbn [drains].
    + destruct outp; [apply IH|]. rewrite IH. now apply drain_line_other.
    + destruct errp; [apply IH|]. rewrite IH. now apply drain_line_other.
Qed.

Lemma run_live_other (proc : process) sched path quiet (w : world) p' :
  p' <> path ->
  files (snd (run_live proc sched (Some path) quiet w)) !! p' = files w !! p'.
Proof.
  intros H. unfold run_live. cbn [snd]. rewrite drains_other by exact H.
  cbn [now files]. unfold touch.
  destruct (files w !! path); [reflexivity|]. now rewrite lookup_insert_ne.
Qed.

Lemma run_live_no_log (proc : process) sched quiet (w : world) :
  files (snd (run_live proc sched None quiet w)) = files w.
Proof. unfold run_live. cbn [snd]. now rewrite drains_no_log. Qed.

(** What a line adds to the console. *)
Lemma drain_line_console quiet log_fh t ln st :
  sys_stdout (now (drain_line quiet log_fh t ln st))
  = sys_stdout (now st)
    ++ (if quiet then "" else match t with Out => ln | Err => "" end)
  /\ sys_stderr (now (drain_line quiet log_fh t ln st))
     = sys_stderr (now st)
       ++ (if quiet then "" else match t with Out => "" | Err => ln end).
Proof.
  unfold drain_line.
  destruct t, quiet, log_fh; cbn [now sys_stdout sys_stderr];
    rewrite ?append_nil_r; now split.
Qed.

Lemma drain_rest_console quiet log_fh t pipe st :
  sys_stdout (now (drain_rest quiet log_fh t pipe st))
  = sys_stdout (now st)
    ++ (if quiet then "" else match t with Out => Str.join pipe | Err => "" end)
  /\ sys_stderr (now (drain_rest quiet log_fh t pipe st))
     = sys_stderr (now st)
       ++ (if quiet then "" else match t with Out => "" | Err => Str.join pipe end).
Proof.
  revert st. induction pipe as [|ln pipe IH]; intros st.
  - cbn [drain_rest fold_left Str.join fold_right].
    destruct quiet, t; rewrite ?append_nil_r; now split.
  - rewrite drain_rest_cons.
    destruct (IH (drain_line quiet log_fh t ln st)) as [-> ->].
    destruct (drain_line_console quiet log_fh t ln st) as [-> ->].
    cbn [Str.join fold_right]. fold (Str.join pipe).
    destruct quiet, t; rewrite ?append_nil_r, ?append_assoc; now split.
Qed.

(** Whatever the schedule, each console channel receives the lines of its
    own pipe, in order, unless the relay is quiet. *)
Lemma drains_console quiet log_fh sched outp errp st :
  sys_stdout (now (drains quiet log_fh sched outp errp st))
  = sys_stdout (now st) ++ (if quiet then "" else Str.join outp)
  /\ sys_stderr (now (drains quiet log_fh sched outp errp st))
     = sys_stderr (now st) ++ (if quiet then "" else Str.join errp).
Proof.
  revert outp errp st.
  induction sched as [|t sched IH]; intros outp errp st.
  - cbn [drains].
    destruct (drain_rest_console quiet log_fh Err errp
                (drain_rest quiet log_fh Out outp st)) as [-> ->].
    destruct (drain_rest_console quiet log_fh Out outp st) as [-> ->].
    destruct quiet; rewrite ?append_nil_r; now split.
  - destruct t; cbn [drains].
    + destruct outp as [|ln outp]; [apply IH|].
      destruct (IH outp errp (drain_line quiet log_fh Out ln st)) as [-> ->].
      destruct (drain_line_console quiet log_fh Out ln st) as [-> ->].
      cbn [Str.join fold_right]. fold (Str.join outp).
      destruct quiet; rewrite ?append_nil_r, ?append_assoc; now split.
    + destruct errp as [|ln errp]; [apply IH|].
      destruct (IH outp errp (drain_line quiet log_fh Err ln st)) as [-> ->].
      destruct (drain_line_console quiet log_fh Err ln st) as [-> ->].
      cbn [Str.join fold_right]. fold (Str.join errp).
      destruct quiet; rewrite ?append_nil_r, ?append_assoc; now split.
Qed.

Lemma run_live_console (proc : process) sched log_file quiet (w : world) :
  sys_stdout (snd (run_live proc sched log_file quiet w))
  = sys_stdout w ++ (if quiet then "" else Str.join (out_pipe proc))
  /\ sys_stderr (snd (run_live proc sched log_file quiet w))
     = sys_stderr w ++ (if quiet then "" else Str.join (err_pipe proc)).
Proof.
  unfold run_live. cbn [snd].
  match goal with
  | |- context [drains ?q ?l ?s ?o ?e ?st] =>
      destruct (drains_console q l s o e st) as [-> ->]
  end.
  destruct log_file; now split.
Qed.

End RelayMore.

(** X11.  With a log file, the relay leaves in it what it held, followed by
    the lines of both pipes, each once, the lines of each pipe in their
    order; the file exists afterwards even when the child emitted nothing. *)
Theorem run_live_log_is_interleaving
    (proc : process) (sched : list stream) (path : string) (quiet : bool)
    (w : world) :
  exists l,
    interleaving (out_pipe proc) (err_pipe proc) l
    /\ files (snd (run_live proc sched (Some path) quiet w)) !! path
       = Some (default "" (files w !! path) ++ Str.join l).
Proof.
  exists (arrival sched (out_pipe proc) (err_pipe proc)). split.
  - apply arrival_interleaving.
  - apply run_live_log.
Qed.

(** X12.  Every merge of the two pipes that keeps the order of each is the
    log of some run: the relay fixes no order between the streams. *)
Theorem run_live_log_any_interleaving
    (proc : process) (path : string) (quiet : bool) (w : world)
    (l : list string) :
  interleaving (out_pipe proc) (err_pipe proc) l ->
  exists sched,
    files (snd (run_live proc sched (Some path) quiet w)) !! path
    = Some (default "" (files w !! path) ++ Str.join l).
Proof.
  intros H. destruct (interleaving_arrival _ _ _ H) as [sched E].
  exists sched. now rewrite run_live_log, E.
Qed.

Lemma run_live_log_any_interleaving_witness :
  exists sched,
    files (snd (run_live {| returncode := 0; out_pipe := ["o1"; "o2"];
                            err_pipe := ["e1"] |}
                  sched (Some "plan.log") true empty_world)) !! "plan.log"
    = Some ("" ++ Str.join ["o1"; "e1"; "o2"]).
Proof.
  apply (run_live_log_any_interleaving
           {| returncode := 0; out_pipe := ["o1"; "o2"]; err_pipe := ["e1"] |}
           "plan.log" true empty_world ["o1"; "e1"; "o2"]).
  repeat constructor.
Defined.

(** X13.  The relay writes no file but its log file: without a log file
    the files are as before, and with one every other path is as before. *)
Theorem run_live_touches_only_log
    (proc : process) (sched : list stream) (quiet : bool) (w : world) :
  files (snd (run_live proc sched None quiet w)) = files w
  /\ forall path p',
       p' <> path ->
       files (snd (run_live proc sched (Some path) quiet w)) !! p' = files w !! p'.
Proof.
  split.
  - apply run_live_no_log.
  - intros path p' H. now apply run_live_other.
Qed.

Lemma run_live_touches_only_log_witness :
  files (snd (run_live failing_plan_process [] (Some "plan.log") false
                {| files := {[ "other" := "kept" ]};
                   sys_stdout := ""; sys_stderr := "" |})) !! "other"
  = Some "kept".
Proof.
  rewrite (proj2 (run_live_touches_only_log failing_plan_process [] false _)
             "plan.log" "other" ltac:(discriminate)).
  apply lookup_singleton_eq.
Defined.

(** X14.  Whatever the schedule, a relay that is not quiet adds to each
    console channel the lines of its own pipe, in their order, and a quiet
    relay adds nothing. *)
Theorem run_live_echoes_each_stream
    (proc : process) (sched : list stream) (log_file : option string) (w : world) :
  sys_stdout (snd (run_live proc sched log_file false w))
  = sys_stdout w ++ Str.join (out_pipe proc)
  /\ sys_stderr (snd (run_live proc sched log_file false w))
     = sys_stderr w ++ Str.join (err_pipe proc)
  /\ sys_stdout (snd (run_live proc sched log_file true w)) = sys_stdout w
  /\ sys_stderr (snd (run_live proc sched log_file true w)) = sys_stderr w.
Proof.
  destruct (run_live_console proc sched log_file false w) as [E1 E2].
  destruct (run_live_console proc sched log_file true w) as [E3 E4].
  rewrite append_nil_r in E3, E4. now repeat split.
Qed.

(** ** Runner, continued *)

Section RunnerMore.
Variable popen : list string -> process.
Variable scheduler : list string -> list stream.
Implicit Types (stack_root path : string) (w : world).

Lemma run_live_result (proc : process) sched log_file quiet w :
  fst (run_live proc sched log_file quiet w)
  = {| code := returncode proc;
       stdout := Str.join (out_pipe proc);
       stderr := Str.join (err_pipe proc) |}.
Proof.
  unfold run_live. cbn [fst].
  match goal with
  | |- context [drains ?q ?l ?s ?o ?e ?st] =>
      destruct (drains_collect q l s o e st) as [-> ->]
  end.
  reflexivity.
Qed.

(** The world a plan with a log file ends in. *)
Lemma plan_world_with_log stack_root path w :
  snd (Runner_plan popen scheduler stack_root (Some path) w)
  = let w2 := snd (run_live (popen (plan_cmd stack_root))
                     (scheduler (plan_cmd stack_root)) (Some path) false
                     (unlinked path w)) in
    if (returncode (popen (plan_cmd stack_root)) =? 1)%Z then w2
    else
      let w' := snd (run_live (popen (show_cmd stack_root))
                       (scheduler (show_cmd stack_root)) (Some path) true w2) in
      {| files := _write_exit_marker path (returncode (popen (plan_cmd stack_root)))
                    (files w');
         sys_stdout := sys_stdout w'; sys_stderr := sys_stderr w' |}.
Proof.
  unfold Runner_plan. fold (unlinked path w).
  pose proof (run_live_code (popen (plan_cmd stack_root))
                (scheduler (plan_cmd stack_root)) (Some path) false
                (unlinked path w)) as Hc.
  destruct (run_live (popen (plan_cmd stack_root)) _ (Some path) false _)
    as [result w2].
  cbn [fst snd] in Hc |- *. rewrite Hc.
  destruct (returncode (popen (plan_cmd stack_root)) =? 1)%Z; cbn [negb].
  - destruct (returncode (popen (plan_cmd stack_root)) =? 0)%Z; [reflexivity|].
    destruct (returncode (popen (plan_cmd stack_root)) =? 2)%Z; reflexivity.
  - destruct (run_live (popen (show_cmd stack_root)) _ (Some path) true w2)
      as [shown w'].
    cbn [snd].
    destruct (returncode (popen (plan_cmd stack_root)) =? 0)%Z; [reflexivity|].
    destruct (returncode (popen (plan_cmd stack_root)) =? 2)%Z; reflexivity.
Qed.

Lemma plan_other_paths stack_root path w p' :
  p' <> path ->
  files (snd (Runner_plan popen scheduler stack_root (Some path) w)) !! p'
  = files w !! p'.
Proof.
  intros H. rewrite plan_world_with_log. cbn zeta.
  assert (U : files (snd (run_live (popen (plan_cmd stack_root))
                            (scheduler (plan_cmd stack_root)) (Some path) false
                            (unlinked path w))) !! p' = files w !! p').
  { rewrite run_live_other by exact H. unfold unlinked. cbn [files].
    now rewrite lookup_delete_ne. }
  destruct (returncode (popen (plan_cmd stack_root)) =? 1)%Z; [exact U|].
  cbn [files]. unfold _write_exit_marker.
  rewrite lookup_append_file_ne by exact H.
  now rewrite run_live_other by exact H.
Qed.

Lemma plan_failure_log stack_root path w :
  returncode (popen (plan_cmd stack_root)) = 1%Z ->
  files (snd (Runner_plan popen scheduler stack_root (Some path) w)) !! path
  = Some (Str.join (arrival (scheduler (plan_cmd stack_root))
                      (out_pipe (popen (plan_cmd stack_root)))
                      (err_pipe (popen (plan_cmd stack_root))))).
Proof.
  intros Hc. rewrite plan_world_with_log. cbn zeta. rewrite Hc. cbn [Z.eqb Pos.eqb].
  rewrite run_live_log. unfold unlinked. cbn [files].
  now rewrite lookup_delete_eq.
Qed.

End RunnerMore.

(** X15.  The outcome of a plan depends on the return code of the plan
    child alone: 0 gives CLEAN, 2 gives DIRTY, and every other code ends
    the command with exit code 1, whatever that code was, whether or not a
    log file was asked for and whatever the show child did. *)
Theorem plan_outcome_by_plan_code
    (popen : list string -> process) (scheduler : list string -> list stream)
    (stack_root : string) (log_file : option string) (w : world) :
  fst (Runner_plan popen scheduler stack_root log_file w)
  = if (returncode (popen (plan_cmd stack_root)) =? 0)%Z then Returned CLEAN
    else if (returncode (popen (plan_cmd stack_root)) =? 2)%Z then Returned DIRTY
    else Exit 1.
Proof.
  unfold Runner_plan.
  match goal with
  | |- context [run_live ?p ?s ?l false ?w0] =>
      pose proof (run_live_code p s l false w0) as Hc;
      destruct (run_live p s l false w0) as [result w2]
  end.
  cbn [fst] in Hc. rewrite Hc.
  destruct (returncode (popen (plan_cmd stack_root)) =? 0)%Z; [reflexivity|].
  destruct (returncode (popen (plan_cmd stack_root)) =? 2)%Z; reflexivity.
Qed.

(** X16.  A plan with a log file whose plan child does not return 1 leaves
    in the log the plan output, the show output and one sentinel line, in
    that order, and nothing of what the file held before; it changes no
    other file. *)
Theorem plan_log_is_fresh_and_ends_with_sentinel
    (popen : list string -> process) (scheduler : list string -> list stream)
    (stack_root path : string) (w : world) :
  returncode (popen (plan_cmd stack_root)) <> 1%Z ->
  files (snd (Runner_plan popen scheduler stack_root (Some path) w)) !! path
  = Some (Str.join (arrival (scheduler (plan_cmd stack_root))
                      (out_pipe (popen (plan_cmd stack_root)))
                      (err_pipe (popen (plan_cmd stack_root))))
          ++ Str.join (arrival (scheduler (show_cmd stack_root))
                         (out_pipe (popen (show_cmd stack_root)))
                         (err_pipe (popen (show_cmd stack_root))))
          ++ "terragrunt-exit-code="
          ++ Str.of_int (returncode (popen (plan_cmd stack_root))) ++ Str.nl)
  /\ forall p', p' <> path ->
       files (snd (Runner_plan popen scheduler stack_root (Some path) w)) !! p'
       = files w !! p'.
Proof.
  intros Hc. split.
  - exact (plan_log_layout popen scheduler stack_root path w Hc).
  - intros p' H. now apply plan_other_paths.
Qed.

Lemma plan_log_is_fresh_and_ends_with_sentinel_witness :
  files (snd (Runner_plan dirty_plan (fun _ => []) "stack" (Some "plan.log")
                {| files := {[ "plan.log" := "old" ]};
                   sys_stdout := ""; sys_stderr := "" |})) !! "plan.log"
  = Some ("[unit-b] tofu: ~ x" ++ Str.nl ++ "[unit-b] tofu: ~ x" ++ Str.nl
          ++ "terragrunt-exit-code=2" ++ Str.nl).
Proof.
  exact (proj1 (plan_log_is_fresh_and_ends_with_sentinel dirty_plan (fun _ => [])
                  "stack" "plan.log" _
                  ltac:(intros H; vm_compute in H; discriminate))).
Defined.

(** X17.  A plan without a log file writes no file.  Its standard error
    receives the error lines of the plan child once when the plan returns 0
    or 2, and twice when it fails: once line by line from the relay, and
    once more from the captured text. *)
Theorem plan_without_log_console
    (popen : list string -> process) (scheduler : list string -> list stream)
    (stack_root : string) (w : world) :
  files (snd (Runner_plan popen scheduler stack_root None w)) = files w
  /\ sys_stderr (snd (Runner_plan popen scheduler stack_root None w))
     = sys_stderr w
       ++ Str.join (err_pipe (popen (plan_cmd stack_root)))
       ++ (if (returncode (popen (plan_cmd stack_root)) =? 0)%Z
              || (returncode (popen (plan_cmd stack_root)) =? 2)%Z
           then "" else Str.join (err_pipe (popen (plan_cmd stack_root)))).
Proof.
  split; [apply plan_without_log|].
  unfold Runner_plan.
  pose proof (run_live_result (popen (plan_cmd stack_root))
                (scheduler (plan_cmd stack_root)) None false w) as Hr.
  pose proof (run_live_console (popen (plan_cmd stack_root))
                (scheduler (plan_cmd stack_root)) None false w) as [_ He].
  destruct (run_live (popen (plan_cmd stack_root)) _ None false w) as [result w2].
  cbn [fst snd] in Hr, He. subst result. cbn [code stderr].
  destruct (returncode (popen (plan_cmd stack_root)) =? 0)%Z;
    [cbn [snd orb]; now rewrite He, append_nil_r|].
  destruct (returncode (popen (plan_cmd stack_root)) =? 2)%Z;
    [cbn [snd orb]; now rewrite He, append_nil_r|].
  cbn [snd orb].
  destruct (Str.join (err_pipe (popen (plan_cmd stack_root)))) as [|c e] eqn:J.
  - rewrite He. now rewrite !append_nil_r.
  - cbn [sys_stderr]. rewrite He. now rewrite append_assoc.
Qed.

(** X18.  Plan, then report.  When the plan child returns 0 or 2 and the
    text the log receives before the sentinel, that is the plan output
    followed at once by the show output, does not hold the marker text,
    the report command accepts the log the plan wrote: for 0 it writes the
    clean report, for 2 the has-changes report with the summary of that
    log.  The two outputs are tested joined: a marker that starts at the
    end of the plan output and ends in the show output counts. *)
Theorem plan_then_report
    (popen : list string -> process) (scheduler : list string -> list stream)
    (stack_root path output : string) (w : world) :
  Str.contains "terragrunt-exit-code="
    (Str.join (arrival (scheduler (plan_cmd stack_root))
                 (out_pipe (popen (plan_cmd stack_root)))
                 (err_pipe (popen (plan_cmd stack_root))))
     ++ Str.join (arrival (scheduler (show_cmd stack_root))
                    (out_pipe (popen (show_cmd stack_root)))
                    (err_pipe (popen (show_cmd stack_root))))) = false ->
  (returncode (popen (plan_cmd stack_root)) = 0%Z ->
   plan_github_pr_comment
     (files (snd (Runner_plan popen scheduler stack_root (Some path) w)))
     path output
   = Wrote (<[output := Str.nl ++ "No changes detected." ++ Str.nl]>
              (files (snd (Runner_plan popen scheduler stack_root (Some path) w)))))
  /\ (returncode (popen (plan_cmd stack_root)) = 2%Z ->
      plan_github_pr_comment
        (files (snd (Runner_plan popen scheduler stack_root (Some path) w)))
        path output
      = Wrote (<[output :=
                   render "HAS_CHANGES"
                     (_summarize_unit_logs
                        (files (snd (Runner_plan popen scheduler stack_root
                                       (Some path) w))) path)]>
                 (files (snd (Runner_plan popen scheduler stack_root (Some path) w))))).
Proof.
  intros Hbody.
  assert (R : forall c, returncode (popen (plan_cmd stack_root)) = c -> c <> 1%Z ->
    plan_github_pr_comment
      (files (snd (Runner_plan popen scheduler stack_root (Some path) w)))
      path output
    = if Str.startswith "0" (Str.of_int c)
      then Wrote (<[output := render "NO_CHANGES"
                     (_summarize_unit_logs
                        (files (snd (Runner_plan popen scheduler stack_root
                                       (Some path) w))) path)]>
                   (files (snd (Runner_plan popen scheduler stack_root (Some path) w))))
      else if Str.startswith "1" (Str.of_int c)
      then Wrote (<[output := render "HAS_ERROR"
                     (_summarize_unit_logs
                        (files (snd (Runner_plan popen scheduler stack_root
                                       (Some path) w))) path)]>
                   (files (snd (Runner_plan popen scheduler stack_root (Some path) w))))
      else if Str.startswith "2" (Str.of_int c)
      then Wrote (<[output := render "HAS_CHANGES"
                     (_summarize_unit_logs
                        (files (snd (Runner_plan popen scheduler stack_root
                                       (Some path) w))) path)]>
                   (files (snd (Runner_plan popen scheduler stack_root (Some path) w))))
      else BadParameter "Unexpected exit code marker in log file").
  { intros c Hc Hne.
    apply (report_of_sentinel _ path output
             (Str.join (arrival (scheduler (plan_cmd stack_root))
                          (out_pipe (popen (plan_cmd stack_root)))
                          (err_pipe (popen (plan_cmd stack_root))))
              ++ Str.join (arrival (scheduler (show_cmd stack_root))
                             (out_pipe (popen (show_cmd stack_root)))
                             (err_pipe (popen (show_cmd stack_root)))))
             (Str.of_int c)).
    - rewrite plan_log_layout by congruence.
      rewrite Hc. unfold sentinel. now rewrite append_assoc.
    - exact Hbody.
    - apply of_int_code_chars. }
  split; intros Hc.
  - rewrite (R 0%Z Hc ltac:(discriminate)). reflexivity.
  - rewrite (R 2%Z Hc ltac:(discriminate)). reflexivity.
Qed.

Lemma plan_then_report_witness :
  plan_github_pr_comment
    (files (snd (Runner_plan dirty_plan (fun _ => []) "stack" (Some "plan.log")
                   empty_world)))
    "plan.log" "comment.md"
  = Wrote (<["comment.md" :=
              render "HAS_CHANGES"
                (_summarize_unit_logs
                   (files (snd (Runner_plan dirty_plan (fun _ => []) "stack"
                                  (Some "plan.log") empty_world))) "plan.log")]>
             (files (snd (Runner_plan dirty_plan (fun _ => []) "stack"
                            (Some "plan.log") empty_world)))).
Proof.
  exact (proj2 (plan_then_report dirty_plan (fun _ => []) "stack" "plan.log"
                  "comment.md" empty_world eq_refl) eq_refl).
Defined.

(** X19.  Plan, then report, when the plan fails.  When the plan child
    returns 1 and its output does not hold the marker text, the report
    command refuses the log the plan wrote, for want of a marker. *)
Theorem failed_plan_then_report
    (popen : list string -> process) (scheduler : list string -> list stream)
    (stack_root path output : string) (w : world) :
  returncode (popen (plan_cmd stack_root)) = 1%Z ->
  Str.contains "terragrunt-exit-code="
    (Str.join (arrival (scheduler (plan_cmd stack_root))
                 (out_pipe (popen (plan_cmd stack_root)))
                 (err_pipe (popen (plan_cmd stack_root))))) = false ->
  plan_github_pr_comment
    (files (snd (Runner_plan popen scheduler stack_root (Some path) w)))
    path output
  = BadParameter "Log file missing terragrunt-exit-code marker".
Proof.
  intros Hc Hbody. unfold plan_github_pr_comment.
  rewrite (plan_failure_log popen scheduler stack_root path w Hc), Hbody.
  reflexivity.
Qed.

Lemma failed_plan_then_report_witness :
  plan_github_pr_comment
    (files (snd (Runner_plan failing_plan (fun _ => []) "stack" (Some "plan.log")
                   empty_world)))
    "plan.log" "comment.md"
  = BadParameter "Log file missing terragrunt-exit-code marker".
Proof.
  exact (failed_plan_then_report failing_plan (fun _ => []) "stack" "plan.log"
           "comment.md" empty_world eq_refl eq_refl).
Defined.

(** X20.  Apply writes no file, echoes the child's error lines to standard
    error, returns when the child returns 0 and otherwise ends the command
    with the child's own return code. *)
Theorem apply_propagates_code
    (popen : list string -> process) (scheduler : list string -> list stream)
    (stack_root : string) (non_interactive : bool) (w : world) :
  fst (Runner_apply popen scheduler stack_root non_interactive w)
  = (if (returncode (popen (apply_cmd stack_root non_interactive)) =? 0)%Z
     then None
     else Some (returncode (popen (apply_cmd stack_root non_interactive))))
  /\ files (snd (Runner_apply popen scheduler stack_root non_interactive w))
     = files w
  /\ sys_stderr (snd (Runner_apply popen scheduler stack_root non_interactive w))
     = sys_stderr w
       ++ Str.join (err_pipe (popen (apply_cmd stack_root non_interactive))).
Proof.
  unfold Runner_apply.
  pose proof (run_live_code (popen (apply_cmd stack_root non_interactive))
                (scheduler (apply_cmd stack_root non_interactive)) None false w) as Hc.
  pose proof (run_live_no_log (popen (apply_cmd stack_root non_interactive))
                (scheduler (apply_cmd stack_root non_interactive)) false w) as Hf.
  pose proof (run_live_console (popen (apply_cmd stack_root non_interactive))
                (scheduler (apply_cmd stack_root non_interactive)) None false w)
    as [_ He].
  destruct (run_live (popen (apply_cmd stack_root non_interactive)) _ None false w)
    as [result w1].
  cbn [fst snd] in Hc, Hf, He. rewrite Hc.
  destruct (returncode (popen (apply_cmd stack_root non_interactive)) =? 0)%Z;
    cbn [negb fst snd]; now repeat split.
Qed.

(** ** The report, continued *)

Section ReportMore.

Lemma contains_app_r (p a s : string) :
  Str.contains p s = true -> Str.contains p (a ++ s) = true.
Proof.
  rewrite !contains_iff. intros (x & y & ->).
  exists (a ++ x), y. now rewrite append_assoc.
Qed.

Lemma contains_app_left (p s b : string) :
  Str.contains p s = true -> Str.contains p (s ++ b) = true.
Proof.
  rewrite !contains_iff. intros (x & y & ->).
  exists x, (y ++ b). now rewrite !append_assoc.
Qed.

Lemma contains_self (p : string) : Str.contains p p = true.
Proof. apply contains_startswith, startswith_self. Qed.

Lemma join_map_In {A : Type} (f : A -> string) (x : A) (l : list A) :
  In x l -> Str.contains (f x) (Str.join (List.map f l)) = true.
Proof.
  induction l as [|y l IH]; [intros []|].
  cbn [List.map Str.join fold_right]. fold (Str.join (List.map f l)).
  intros [->|H].
  - apply contains_app_left, contains_self.
  - apply contains_app_r. now apply IH.
Qed.

(** The has-changes report: fixed text around the two listings. *)
Lemma render_changes (st : list string) (df : list (string * list string)) :
  render "HAS_CHANGES" (Some {| stable := st; diffs := df |})
  = (Str.nl ++ "Unchanged units:" ++ Str.nl ++ Str.nl)
    ++ match st with
       | _ :: _ => Str.join (List.map (fun unit => "- `" ++ unit ++ "`" ++ Str.nl) st)
       | [] => "None" ++ Str.nl
       end
    ++ (Str.nl ++ Str.nl ++ Str.nl ++ "Changed units:" ++ Str.nl ++ Str.nl)
    ++ match df with
       | _ :: _ =>
           Str.join (List.map (fun '(unit, lines) =>
             "- `" ++ unit ++ "`" ++ Str.nl ++ Str.nl
             ++ "<details>" ++ Str.nl
             ++ "<summary>Changes to " ++ unit ++ "</summary>" ++ Str.nl ++ Str.nl
             ++ "```diff" ++ Str.nl
             ++ Str.join (List.map (fun ln => ln ++ Str.nl) lines)
             ++ "```" ++ Str.nl ++ Str.nl
             ++ "</details>" ++ Str.nl ++ Str.nl) df)
       | [] => "None" ++ Str.nl
       end
    ++ (Str.nl ++ Str.nl).
Proof. destruct st, df; reflexivity. Qed.

End ReportMore.

(** X21.  The report command writes its output exactly when the log exists
    and its text holds the marker followed by 0, 1 or 2; when it writes, no
    path but the output changes. *)
Theorem report_written_iff (fs : filesystem) (log_file output : string) :
  ((exists fs', plan_github_pr_comment fs log_file output = Wrote fs')
   <-> exists content,
         fs !! log_file = Some content
         /\ (Str.contains "terragrunt-exit-code=0" content = true
             \/ Str.contains "terragrunt-exit-code=1" content = true
             \/ Str.contains "terragrunt-exit-code=2" content = true))
  /\ forall fs' p,
       plan_github_pr_comment fs log_file output = Wrote fs' ->
       p <> output -> fs' !! p = fs !! p.
Proof.
  split; [split|].
  - intros (fs' & H). unfold plan_github_pr_comment in H.
    destruct (fs !! log_file) as [content|]; [|discriminate].
    exists content. split; [reflexivity|].
    destruct (negb (Str.contains "terragrunt-exit-code=" content)); [discriminate|].
    destruct (Str.contains "terragrunt-exit-code=0" content); [now left|].
    destruct (Str.contains "terragrunt-exit-code=1" content); [right; now left|].
    destruct (Str.contains "terragrunt-exit-code=2" content); [right; now right|].
    discriminate.
  - intros (content & Hfs & H).
    assert (M : Str.contains "terragrunt-exit-code=" content = true).
    { destruct H as [H|[H|H]].
      - now apply (contains_app_l "terragrunt-exit-code=" "0").
      - now apply (contains_app_l "terragrunt-exit-code=" "1").
      - now apply (contains_app_l "terragrunt-exit-code=" "2"). }
    rewrite (report_by_tests fs log_file output content Hfs M).
    destruct (Str.contains "terragrunt-exit-code=0" content); [eauto|].
    destruct (Str.contains "terragrunt-exit-code=1" content); [eauto|].
    destruct (Str.contains "terragrunt-exit-code=2" content); [eauto|].
    destruct H as [H|[H|H]]; discriminate.
  - intros fs' p H Hp. unfold plan_github_pr_comment in H.
    destruct (fs !! log_file) as [content|]; [|discriminate].
    destruct (negb (Str.contains "terragrunt-exit-code=" content)); [discriminate|].
    destruct (Str.contains "terragrunt-exit-code=0" content);
      [injection H as <-; now rewrite lookup_insert_ne|].
    destruct (Str.contains "terragrunt-exit-code=1" content);
      [injection H as <-; now rewrite lookup_insert_ne|].
    destruct (Str.contains "terragrunt-exit-code=2" content);
      [injection H as <-; now rewrite lookup_insert_ne|].
    discriminate.
Qed.

Lemma report_written_iff_witness :
  exists fs',
    plan_github_pr_comment
      {[ "plan.log" := "terragrunt-exit-code=0" ++ Str.nl ]} "plan.log" "comment.md"
    = Wrote fs'.
Proof.
  apply (proj2 (proj1 (report_written_iff
                         {[ "plan.log" := "terragrunt-exit-code=0" ++ Str.nl ]}
                         "plan.log" "comment.md"))).
  exists ("terragrunt-exit-code=0" ++ Str.nl).
  split; [apply lookup_singleton_eq|left; reflexivity].
Defined.

(** X22.  The has-changes report names every unit of the summary: a bullet
    for each stable unit, and for each changed unit a section whose header
    names the unit and whose diff fence holds the lines of the unit, in
    their order, one per line. *)
Theorem has_changes_report_lists_units (sd : StackDiffs) :
  (forall u,
     In u (stable sd) ->
     Str.contains ("- `" ++ u ++ "`" ++ Str.nl)
       (render "HAS_CHANGES" (Some sd)) = true)
  /\ (forall u lines,
        In (u, lines) (diffs sd) ->
        Str.contains
          ("<summary>Changes to " ++ u ++ "</summary>" ++ Str.nl ++ Str.nl
           ++ "```diff" ++ Str.nl
           ++ Str.join (List.map (fun ln => ln ++ Str.nl) lines)
           ++ "```" ++ Str.nl)
          (render "HAS_CHANGES" (Some sd)) = true).
Proof.
  destruct sd as [st df]. cbn [stable diffs]. split.
  - intros u Hu. rewrite render_changes.
    apply contains_app_r, contains_app_left.
    destruct st as [|u0 st']; [destruct Hu|].
    exact (join_map_In (fun unit => "- `" ++ unit ++ "`" ++ Str.nl) u _ Hu).
  - intros u lines Hin. rewrite render_changes.
    apply contains_app_r, contains_app_r, contains_app_r, contains_app_left.
    destruct df as [|it df']; [destruct Hin|].
    pose proof (join_map_In
      (fun '(unit, lines) =>
         "- `" ++ unit ++ "`" ++ Str.nl ++ Str.nl
         ++ "<details>" ++ Str.nl
         ++ "<summary>Changes to " ++ unit ++ "</summary>" ++ Str.nl ++ Str.nl
         ++ "```diff" ++ Str.nl
         ++ Str.join (List.map (fun ln => ln ++ Str.nl) lines)
         ++ "```" ++ Str.nl ++ Str.nl
         ++ "</details>" ++ Str.nl ++ Str.nl) (u, lines) _ Hin) as J.
    cbn beta iota in J.
    apply contains_iff in J as (a & b & ->).
    apply contains_iff.
    exists (a ++ "- `" ++ u ++ "`" ++ Str.nl ++ Str.nl ++ "<details>" ++ Str.nl),
      (Str.nl ++ "</details>" ++ Str.nl ++ Str.nl ++ b).
    rewrite !append_assoc. reflexivity.
Qed.

Lemma has_changes_report_lists_units_witness :
  Str.contains ("- `unit-a`" ++ Str.nl)
    (render "HAS_CHANGES"
       (Some {| stable := ["unit-a"]; diffs := [("unit-b", ["! x"])] |})) = true.
Proof.
  exact (proj1 (has_changes_report_lists_units
                  {| stable := ["unit-a"]; diffs := [("unit-b", ["! x"])] |})
           "unit-a" (or_introl eq_refl)).
Defined.

(** ** The sentinel and the summary *)

Section SentinelLine.

Lemma all_app_false (f : ascii -> bool) (a : string) (c : ascii) (b : string) :
  f c = false -> Str.all f (a ++ String c b) = false.
Proof.
  intros H. rewrite all_app. cbn [Str.all]. rewrite H. apply andb_false_r.
Qed.

(** A line without an opening bracket is not matched. *)
Lemma no_bracket_no_match (ln : string) :
  Str.all (fun c => negb (Ascii.eqb c "[")) ln = true ->
  Re.match_ TOFU_RE ln = None.
Proof.
  intros Hall. unfold Re.match_. rewrite tofu_code.
  destruct (Re.run _ ln []) as [r|] eqn:H; [exfalso|reflexivity].
  apply run_repeat in H as (pre & s1 & -> & _ & _ & H).
  apply run_literal in H as (s2 & -> & _).
  now rewrite all_app_false in Hall.
Qed.

Lemma code_char_not_bracket_or_lf (c : ascii) :
  code_char c = true ->
  negb (Ascii.eqb c "[") = true /\ negb (Ascii.eqb c Char.LF) = true.
Proof.
  destruct c as [[] [] [] [] [] [] [] []]; vm_compute;
    first [now split | discriminate].
Qed.

Lemma lines_one (s : string) :
  Str.all (fun c => negb (Ascii.eqb c Char.LF)) s = true ->
  Str.lines (s ++ Str.nl) = [s ++ Str.nl].
Proof.
  induction s as [|c s IH]; [reflexivity|].
  cbn [Str.all]. intros H. apply andb_true_iff in H as [Hc Hs].
  cbn [String.append Str.lines]. apply negb_true_iff in Hc. rewrite Hc.
  now rewrite (IH Hs).
Qed.

Lemma lines_nl_nonempty (b : string) : Str.lines (b ++ Str.nl) <> [].
Proof.
  induction b as [|c b IH]; [discriminate|].
  cbn [String.append Str.lines]. destruct (Ascii.eqb c Char.LF); [discriminate|].
  now destruct (Str.lines (b ++ Str.nl)).
Qed.

(** After a line feed, the lines of what follows are lines of the whole. *)
Lemma lines_app_nl (b t : string) :
  Str.lines ((b ++ Str.nl) ++ t) = (Str.lines (b ++ Str.nl) ++ Str.lines t)%list.
Proof.
  induction b as [|c b IH]; [reflexivity|].
  cbn [String.append Str.lines]. destruct (Ascii.eqb c Char.LF).
  - now rewrite IH.
  - rewrite IH. pose proof (lines_nl_nonempty b) as N.
    now destruct (Str.lines (b ++ Str.nl)).
Qed.

Lemma sentinel_lines (cs : string) :
  Str.all code_char cs = true -> Str.lines (sentinel cs) = [sentinel cs].
Proof.
  intros H. unfold sentinel.
  rewrite <- (append_assoc "terragrunt-exit-code=" cs Str.nl).
  apply lines_one. rewrite all_app. apply andb_true_iff. split; [reflexivity|].
  apply (all_impl code_char); [|exact H].
  intros c Hc. now apply code_char_not_bracket_or_lf.
Qed.

Lemma sentinel_no_match (cs : string) :
  Str.all code_char cs = true -> Re.match_ TOFU_RE (sentinel cs) = None.
Proof.
  intros H. apply no_bracket_no_match. unfold sentinel.
  rewrite all_app. apply andb_true_iff. split; [reflexivity|].
  rewrite all_app. apply andb_true_iff. split; [|reflexivity].
  apply (all_impl code_char); [|exact H].
  intros c Hc. now apply code_char_not_bracket_or_lf.
Qed.

End SentinelLine.

(** X23.  The sentinel line is not taken for a message: on a log that is
    empty or ends with a line feed, appending the sentinel of any code
    leaves the grouping, and so the summary, as it was. *)
Theorem sentinel_leaves_grouping (body : string) (code : Z) :
  body = "" \/ (exists b, body = b ++ Str.nl) ->
  _collect_unit_entries
    (body ++ "terragrunt-exit-code=" ++ Str.of_int code ++ Str.nl)
  = _collect_unit_entries body.
Proof.
  intros Hbody.
  pose proof (of_int_code_chars code) as Hcs.
  change ("terragrunt-exit-code=" ++ Str.of_int code ++ Str.nl)
    with (sentinel (Str.of_int code)).
  unfold _collect_unit_entries.
  assert (L : Str.lines (body ++ sentinel (Str.of_int code))
              = (Str.lines body ++ [sentinel (Str.of_int code)])%list).
  { destruct Hbody as [->|(b & ->)].
    - cbn [String.append app Str.lines]. now apply sentinel_lines.
    - now rewrite lines_app_nl, sentinel_lines. }
  rewrite L, fold_left_app. cbn [fold_left].
  unfold collect_line at 1. now rewrite sentinel_no_match.
Qed.

Lemma sentinel_leaves_grouping_witness :
  _collect_unit_entries
    (("[unit-a] tofu: No changes." ++ Str.nl)
     ++ "terragrunt-exit-code=" ++ Str.of_int 0 ++ Str.nl)
  = _collect_unit_entries ("[unit-a] tofu: No changes." ++ Str.nl).
Proof.
  apply (sentinel_leaves_grouping ("[unit-a] tofu: No changes." ++ Str.nl) 0).
  right. now exists "[unit-a] tofu: No changes.".
Defined.

(** X24.  A plan with a log file sends to standard error the error lines of
    the plan child, once, and none of the show child, whose relay is
    quiet. *)
Theorem plan_with_log_stderr
    (popen : list string -> process) (scheduler : list string -> list stream)
    (stack_root path : string) (w : world) :
  sys_stderr (snd (Runner_plan popen scheduler stack_root (Some path) w))
  = sys_stderr w ++ Str.join (err_pipe (popen (plan_cmd stack_root))).
Proof.
  rewrite plan_world_with_log. cbn zeta.
  destruct (run_live_console (popen (plan_cmd stack_root))
              (scheduler (plan_cmd stack_root)) (Some path) false
              (unlinked path w)) as [_ He].
  destruct (returncode (popen (plan_cmd stack_root)) =? 1)%Z; [exact He|].
  cbn [sys_stderr].
  match goal with
  | |- context [run_live ?p ?s ?l true ?w0] =>
      destruct (run_live_console p s l true w0) as [_ Hs]
  end.
  rewrite Hs, He. apply append_nil_r.
Qed.

(** ** The summarizer on paths that cannot be read *)

Section OnDisk.
Implicit Types (d : disk) (log_file : string).

Lemma readable_lookup d log_file :
  readable d !! log_file
  = match d !! log_file with
    | Some (TextFile text) => Some text
    | _ => None
    end.
Proof.
  unfold readable. rewrite lookup_omap.
  now destruct (d !! log_file) as [[]|].
Qed.

(** On a path that is missing or names a readable text, the summarizer is
    the one of the readable file system. *)
Lemma summarize_on_readable d log_file :
  d !! log_file = None \/ (exists text, d !! log_file = Some (TextFile text)) ->
  summarize_unit_logs_on d log_file
  = Returns (_summarize_unit_logs (readable d) log_file).
Proof.
  intros H. unfold summarize_unit_logs_on, collect_unit_entries_on, read_lines,
    path_exists, _summarize_unit_logs.
  rewrite readable_lookup.
  destruct H as [->|(text & ->)]; reflexivity.
Qed.

Lemma summary_of_text (text : string) :
  fold_left summarize_unit (_collect_unit_entries text)
    {| stable := []; diffs := [] |}
  = {| stable := List.map fst (List.filter is_stable (_collect_unit_entries text));
       diffs := List.map normalized
                  (List.filter (fun it => negb (is_stable it))
                     (_collect_unit_entries text)) |}.
Proof.
  pose proof (summarize_stable_list (_collect_unit_entries text)
                {| stable := []; diffs := [] |}) as S.
  pose proof (summarize_diffs_list (_collect_unit_entries text)
                {| stable := []; diffs := [] |} (grouped_NoDup text)
                ltac:(intros ? ? [])) as D.
  cbn [stable diffs app] in S, D.
  destruct (fold_left summarize_unit _ _) as [st df].
  cbn [stable diffs] in S, D. now subst.
Qed.

End OnDisk.

(** C7 (as the code has it).  The summarizer returns nothing, without
    raising, exactly when the path does not exist.  When the path names a
    readable UTF-8 text it returns the summary of that text: the units with
    a no-changes message, and every other unit with its messages
    normalized.  When the path exists but is a directory, or a file that is
    not valid UTF-8, the summarizer raises what opening or reading it
    raises. *)
Theorem summarize_on_disk_outcomes (d : disk) (log_file : string) :
  (summarize_unit_logs_on d log_file = Returns None <-> d !! log_file = None)
  /\ (forall text,
        d !! log_file = Some (TextFile text) ->
        summarize_unit_logs_on d log_file
        = Returns (Some
            {| stable := List.map fst
                           (List.filter is_stable (_collect_unit_entries text));
               diffs := List.map normalized
                          (List.filter (fun it => negb (is_stable it))
                             (_collect_unit_entries text)) |}))
  /\ (d !! log_file = Some Directory ->
      summarize_unit_logs_on d log_file = Raises IsADirectoryError)
  /\ (d !! log_file = Some BadFile ->
      summarize_unit_logs_on d log_file = Raises UnicodeDecodeError).
Proof.
  unfold summarize_unit_logs_on, collect_unit_entries_on, read_lines, path_exists.
  repeat match goal with |- _ /\ _ => split end.
  - split; destruct (d !! log_file) as [[text| |]|]; cbn [negb]; intros H;
      first [reflexivity | discriminate].
  - intros text ->. cbn [negb]. do 2 f_equal.
    exact (summary_of_text text).
  - intros ->. reflexivity.
  - intros ->. reflexivity.
Qed.

Lemma summarize_on_disk_outcomes_witness :
  summarize_unit_logs_on
    {[ "plan.log" := TextFile ("[b] tofu: ~ x" ++ Str.nl
                               ++ "[a] tofu: No changes." ++ Str.nl) ]}
    "plan.log"
  = Returns (Some {| stable := ["a"]; diffs := [("b", ["! x"])] |}).
Proof.
  exact (proj1 (proj2 (summarize_on_disk_outcomes
                         {[ "plan.log" := TextFile ("[b] tofu: ~ x" ++ Str.nl
                                                    ++ "[a] tofu: No changes."
                                                    ++ Str.nl) ]}
                         "plan.log"))
           ("[b] tofu: ~ x" ++ Str.nl ++ "[a] tofu: No changes." ++ Str.nl)
           (lookup_singleton_eq _ _)).
Defined.

(** C7 (as the specification words it) fails for a log file that exists and
    is not valid UTF-8: the summarizer neither reports it absent nor
    returns a summary, it raises. *)
Lemma summarize_existing_file_raises_counterexample :
  path_exists {[ "plan.log" := BadFile ]} "plan.log" = true
  /\ summarize_unit_logs_on {[ "plan.log" := BadFile ]} "plan.log"
     = Raises UnicodeDecodeError
  /\ ~ exists r,
         summarize_unit_logs_on {[ "plan.log" := BadFile ]} "plan.log"
         = Returns r.
Proof.
  assert (E : summarize_unit_logs_on {[ "plan.log" := BadFile ]} "plan.log"
              = Raises UnicodeDecodeError).
  { unfold summarize_unit_logs_on, collect_unit_entries_on, read_lines, path_exists.
    now rewrite lookup_singleton_eq. }
  split; [|split].
  - unfold path_exists. now rewrite lookup_singleton_eq.
  - exact E.
  - intros (r & H). rewrite E in H. discriminate.
Qed.
